(** * ng-inline-svg: the [inlineSVG] directive

    A shallow embedding of [src/inline-svg.directive.ts] (class
    [InlineSVGDirective]) and the properties of its load pipeline:
    URL short-circuit, subscription handling, script evaluation policy,
    processing order, the post-load hook and the failure/fallback path. *)

From Stdlib Require Import Ascii.
From stdpp Require Import gmap strings list.

Local Open Scope list_scope.

(** ** DOM nodes

    An element tree as the directive sees it.  [ident] is the identity of an
    element node inside its tree, what [removeChild] picks the node to detach
    by; the elements of a tree are meant to have different [ident]s. *)

#[warnings="-register-all"]
Inductive Node :=
| Text (data : string)
| Elem (ident : nat) (tag : string) (attrs : list (string * string))
       (children : list Node).

Module Dom.

(** What identifies an element and decides how the directive treats it:
    identity, tag name and attribute list. *)
Definition label (n : Node) : option (nat * string * list (string * string)) :=
  match n with
  | Text _ => None
  | Elem i t a _ => Some (i, t, a)
  end.

Definition childNodes (n : Node) : list Node :=
  match n with
  | Text _ => []
  | Elem _ _ _ ch => ch
  end.

Definition same_node (a b : Node) : bool :=
  match a, b with
  | Elem i _ _ _, Elem j _ _ _ => Nat.eqb i j
  | _, _ => false
  end.

Definition has_tag (t : string) (n : Node) : bool :=
  match n with
  | Text _ => false
  | Elem _ t' _ _ => String.eqb t t'
  end.

Fixpoint assoc (k : string) (l : list (string * string)) : option string :=
  match l with
  | [] => None
  | (k', v) :: l' => if String.eqb k k' then Some v else assoc k l'
  end.

(** [el.getAttribute(name)]: [null] when absent. *)
Definition getAttribute (name : string) (n : Node) : option string :=
  match n with
  | Text _ => None
  | Elem _ _ a _ => assoc name a
  end.

(** [node.textContent]: the text of all descendants, in document order. *)
Fixpoint textContent (n : Node) : string :=
  match n with
  | Text s => s
  | Elem _ _ _ ch =>
      fold_right (λ c acc, String.append (textContent c) acc) "" ch
  end.

(** The node and everything below it, in document order. *)
Fixpoint subtree (n : Node) : list Node :=
  n :: match n with
       | Text _ => []
       | Elem _ _ _ ch => flat_map subtree ch
       end.

Definition descendants (n : Node) : list Node :=
  flat_map subtree (childNodes n).

(** [el.querySelectorAll(tag)]: a static list of the descendant elements
    with that tag name, in document order (the element itself is not in
    it). *)
Definition querySelectorAll (t : string) (n : Node) : list Node :=
  filter (λ m, has_tag t m = true) (descendants n).

(** [tree] after the node [victim] has been detached from its parent. *)
Fixpoint detach (victim : Node) (tree : Node) : Node :=
  match tree with
  | Text s => Text s
  | Elem i t a ch =>
      Elem i t a
        (filter (λ c, same_node victim c = false) (map (detach victim) ch))
  end.

(** [Renderer2.createElement('IMG')] followed by
    [setAttribute(el, 'src', url)]. *)
Definition createImg (url : string) : Node :=
  Elem 0 "IMG" [("src", url)] [].

End Dom.

(** ** Script discovery: the first loop of [_evalScripts] *)

Module Scripts.
Import Dom.

(** [!scriptType || scriptType === 'application/ecmascript' ||
     scriptType === 'application/javascript'] *)
Definition eligible (scriptType : option string) : bool :=
  match scriptType with
  | None => true
  | Some t =>
      String.eqb t ""
      || String.eqb t "application/ecmascript"
      || String.eqb t "application/javascript"
  end.

Definition is_eligible (script : Node) : bool :=
  eligible (getAttribute "type" script).

(** One iteration of [for (let i = 0; i < scripts.length; i++)]: an eligible
    script has its text pushed on [scriptsToEval] and is removed from its
    parent.  ([innerText] is not defined on SVG script elements, so
    [innerText || textContent] is the [textContent].) *)
Definition fetch_step (acc : list string * Node) (script : Node)
  : list string * Node :=
  if is_eligible script
  then (acc.1 ++ [textContent script], detach script acc.2)
  else acc.

(** The whole loop over [svg.querySelectorAll('script')]: the texts to
    evaluate and the tree that is left. *)
Definition fetch_scripts (svg : Node) : list string * Node :=
  fold_left fetch_step (querySelectorAll "script" svg) ([], svg).

Definition scriptsToEval (svg : Node) : list string := (fetch_scripts svg).1.
Definition stripped (svg : Node) : Node := (fetch_scripts svg).2.

End Scripts.


(** ** Values of the directive *)

Inductive Platform := Browser | Server | WorkerApp.

Definition isPlatformBrowser (platformId : Platform) : bool :=
  match platformId with Browser => true | _ => false end.

Definition isPlatformServer (platformId : Platform) : bool :=
  match platformId with Server => true | _ => false end.

(** ['always' | 'once' | 'never'] *)
Inductive EvalScripts := always | once | never.

(** A reference to an element object. *)
Abbreviation Ref := nat (only parsing).

(** The [@Input()] properties. *)
Record Inputs := mkInputs {
  inlineSVG : option string;
  replaceContents : bool;
  prepend : bool;
  injectComponent : bool;
  cacheSVG : bool;
  removeSVGAttributes : option (list string);
  forceEvalStyles : bool;
  evalScripts : EvalScripts;
  fallbackImgUrl : option string;
  onSVGLoaded : option (Node → option Node) }.

(** The field initialisers of the class. *)
Definition default_inputs : Inputs :=
  {| inlineSVG := None; replaceContents := true; prepend := false;
     injectComponent := false; cacheSVG := true; removeSVGAttributes := None;
     forceEvalStyles := false; evalScripts := always; fallbackImgUrl := None;
     onSVGLoaded := None |}.

Definition with_url (url : option string) (i : Inputs) : Inputs :=
  {| inlineSVG := url; replaceContents := replaceContents i;
     prepend := prepend i; injectComponent := injectComponent i;
     cacheSVG := cacheSVG i; removeSVGAttributes := removeSVGAttributes i;
     forceEvalStyles := forceEvalStyles i; evalScripts := evalScripts i;
     fallbackImgUrl := fallbackImgUrl i; onSVGLoaded := onSVGLoaded i |}.

(** How a statement completes: normally, or by throwing. *)
Inductive Completion (A : Type) :=
| Normal (a : A)
| Thrown (e : string).
Arguments Normal {A} a.
Arguments Thrown {A} e.

(** The functions the directive imports from [./svg-util], taken as they
    are called, and the global object scripts run against: [runScript text]
    is the outcome of [new Function(text)(window)], [None] when it returns
    and [Some e] when it throws [e]. *)
Record Env := mkEnv {
  isUrlSymbol : option string → bool;
  createSymbolSvg : option Node → option string → Completion Node;
  removeAttributes : Node → list string → Node;
  runScript : string → option string }.

(** What the instance asks of its collaborators ([SVGCacheService],
    [InlineSVGService], the component factory, the script runner, its two
    event emitters), in order. *)
Inductive Event :=
| GetSVG (url : string) (useCache : bool)
    (* _svgCache.getSVG(url, cacheSVG).subscribe(...) *)
| InsertEl (content : option Ref) (replaceContents prepend : bool)
    (* _inlineSVGService.insertEl(this, host, content, ...) *)
| CreateComponent
    (* _viewContainerRef.createComponent(factory) *)
| ComponentContent (content : option Ref) (replaceContents prepend : bool)
    (* the InlineSVGComponent instance is given its content and flags and
       is appended to the host *)
| EvalScript (text : string)
    (* new Function(text)(window) *)
| SVGInserted (svg : option Ref)
    (* onSVGInserted.emit(svg) *)
| SVGFailed (msg : string)
    (* onSVGFailed.emit(msg) *)
| Uncaught (e : string).
    (* an exception left a callback *)

(** A subscription to the observable returned by [getSVG]. *)
Inductive Subscription := Pending | Settled | Unsubscribed.

Global Instance Subscription_eq_dec : EqDecision Subscription.
Proof. solve_decision. Defined.

(** The instance and the objects it works on. *)
Record Directive := mkDirective {
  inputs : Inputs;
  env : Env;
  platformId : Platform;
  _supportsSVG : bool;
  _prevUrl : option string;
  _ranScripts : gmap string bool;
  _subscription : option nat;
  _svgComp : bool;
  heap : list Node;
  subscriptions : list Subscription;
  log : list Event }.

Definition set_inputs (i : Inputs) (d : Directive) : Directive :=
  mkDirective i (env d) (platformId d) (_supportsSVG d) (_prevUrl d)
    (_ranScripts d) (_subscription d) (_svgComp d) (heap d) (subscriptions d)
    (log d).

Definition set_prevUrl (u : option string) (d : Directive) : Directive :=
  mkDirective (inputs d) (env d) (platformId d) (_supportsSVG d) u
    (_ranScripts d) (_subscription d) (_svgComp d) (heap d) (subscriptions d)
    (log d).

Definition set_ranScripts (r : gmap string bool) (d : Directive) : Directive :=
  mkDirective (inputs d) (env d) (platformId d) (_supportsSVG d) (_prevUrl d)
    r (_subscription d) (_svgComp d) (heap d) (subscriptions d) (log d).

Definition set_subscription (s : option nat) (d : Directive) : Directive :=
  mkDirective (inputs d) (env d) (platformId d) (_supportsSVG d) (_prevUrl d)
    (_ranScripts d) s (_svgComp d) (heap d) (subscriptions d) (log d).

Definition set_svgComp (c : bool) (d : Directive) : Directive :=
  mkDirective (inputs d) (env d) (platformId d) (_supportsSVG d) (_prevUrl d)
    (_ranScripts d) (_subscription d) c (heap d) (subscriptions d) (log d).

Definition set_heap (h : list Node) (d : Directive) : Directive :=
  mkDirective (inputs d) (env d) (platformId d) (_supportsSVG d) (_prevUrl d)
    (_ranScripts d) (_subscription d) (_svgComp d) h (subscriptions d) (log d).

Definition set_subscriptions (s : list Subscription) (d : Directive)
  : Directive :=
  mkDirective (inputs d) (env d) (platformId d) (_supportsSVG d) (_prevUrl d)
    (_ranScripts d) (_subscription d) (_svgComp d) (heap d) s (log d).

Definition set_log (l : list Event) (d : Directive) : Directive :=
  mkDirective (inputs d) (env d) (platformId d) (_supportsSVG d) (_prevUrl d)
    (_ranScripts d) (_subscription d) (_svgComp d) (heap d) (subscriptions d)
    l.

(** ** Methods run in a state-and-exception monad *)

Definition M (A : Type) : Type := Directive → Completion A * Directive.

Global Instance M_ret : MRet M := λ A a d, (Normal a, d).

Global Instance M_bind : MBind M := λ A B f m d,
  match m d with
  | (Normal a, d') => f a d'
  | (Thrown e, d') => (Thrown e, d')
  end.

Global Instance M_throw : MThrow string M := λ A e d, (Thrown e, d).

Definition this : M Directive := λ d, (Normal d, d).
Definition modify (f : Directive → Directive) : M unit := λ d, (Normal tt, f d).

Definition emit (e : Event) : M unit :=
  modify (λ d, set_log (log d ++ [e]) d).

(** A new element object. *)
Definition alloc (n : Node) : M Ref :=
  λ d, (Normal (length (heap d)), set_heap (heap d ++ [n]) d).

Definition deref (r : Ref) : M Node :=
  d ← this;
  match heap d !! r with
  | Some n => mret n
  | None => mthrow "ReferenceError"
  end.

Definition assign (r : Ref) (n : Node) : M unit :=
  modify (λ d, set_heap (<[r := n]> (heap d)) d).

(** ** The methods of [InlineSVGDirective] *)

(** JavaScript truthiness of a [string | undefined]. *)
Definition truthy (s : option string) : bool :=
  match s with
  | Some (String _ _) => true
  | _ => false
  end.

(** The property key [obj[k]] uses for a [string | undefined]. *)
Definition property_key (k : option string) : string :=
  default "undefined" k.

(** [s.split('#')] *)
Fixpoint split_hash (s : string) : list string :=
  match s with
  | EmptyString => [EmptyString]
  | String c s' =>
      if Ascii.eqb c "#"%char then EmptyString :: split_hash s'
      else match split_hash s' with
           | [] => [String c EmptyString]
           | p :: ps => String c p :: ps
           end
  end.

(** [tag.textContent += ''] on every [style] element below the root: the
    children of the element become one text node holding its text. *)
Fixpoint rewrite_style (n : Node) : Node :=
  match n with
  | Text s => Text s
  | Elem i t a ch =>
      if String.eqb t "style"
      then Elem i t a
             (match Dom.textContent n with
              | EmptyString => []
              | txt => [Text txt]
              end)
      else Elem i t a (map rewrite_style ch)
  end.

Definition forceStyles (svg : Node) : Node :=
  match svg with
  | Text s => Text s
  | Elem i t a ch => Elem i t a (map rewrite_style ch)
  end.

(** [_insertEl(el)] *)
Definition _insertEl (el : option Ref) : M unit :=
  d ← this;
  if injectComponent (inputs d) then
    (if _svgComp d then mret tt
     else emit CreateComponent;; modify (set_svgComp true));;
    emit (ComponentContent el (replaceContents (inputs d)) (prepend (inputs d)))
  else
    emit (InsertEl el (replaceContents (inputs d)) (prepend (inputs d))).

(** [_fail(msg)] *)
Definition _fail (msg : string) : M unit :=
  emit (SVGFailed msg);;
  d ← this;
  if truthy (fallbackImgUrl (inputs d)) then
    elImg ← alloc (Dom.createImg (default "" (fallbackImgUrl (inputs d))));
    _insertEl (Some elImg)
  else mret tt.

(** The second loop of [_evalScripts]: the scripts run in order, and the
    first one that throws ends the loop and the method. *)
Fixpoint run_scripts (scriptsToEval : list string) : M unit :=
  match scriptsToEval with
  | [] => mret tt
  | text :: rest =>
      d ← this;
      emit (EvalScript text);;
      match runScript (env d) text with
      | None => run_scripts rest
      | Some e => mthrow e
      end
  end.

(** [_ranScripts] starts as the object literal [{}], so that beside the
    entries the instance writes it has, by inheritance, the properties of
    [Object.prototype].  These are the names of its methods, each of which
    counts as true; the accessor [__proto__] comes on top of them. *)
Definition object_prototype : list string :=
  ["constructor"; "hasOwnProperty"; "isPrototypeOf"; "propertyIsEnumerable";
   "toLocaleString"; "toString"; "valueOf";
   "__defineGetter__"; "__defineSetter__";
   "__lookupGetter__"; "__lookupSetter__"].

Definition inherited (key : string) : bool :=
  existsb (String.eqb key) object_prototype.

(** The truth value of [this._ranScripts[key]].  Under [__proto__] the
    accessor of [Object.prototype] answers, with the prototype; under any
    other key it is the entry of the instance's own where there is one, and
    what the object inherits otherwise. *)
Definition ran_before (ranScripts : gmap string bool) (key : string) : bool :=
  if String.eqb key "__proto__" then true
  else match ranScripts !! key with
       | Some b => b
       | None => inherited key
       end.

(** [this._ranScripts[key] = true].  Under [__proto__] the assignment goes to
    the same accessor, which leaves the object as it is when the value is not
    an object; under any other key the object gets an entry of its own. *)
Definition mark_ran (key : string) (ranScripts : gmap string bool)
  : gmap string bool :=
  if String.eqb key "__proto__" then ranScripts
  else <[key := true]> ranScripts.

(** [scriptsToEval.length > 0 && (this.evalScripts === 'always' ||
     (this.evalScripts === 'once' && !this._ranScripts[this.inlineSVG]))] *)
Definition should_run (scriptsToEval : list string) (d : Directive) : bool :=
  (0 <? length scriptsToEval)
  && match evalScripts (inputs d) with
     | always => true
     | once =>
         negb (ran_before (_ranScripts d) (property_key (inlineSVG (inputs d))))
     | never => false
     end.

(** [_evalScripts(svg)] *)
Definition _evalScripts (svg : option Ref) : M unit :=
  d ← this;
  if negb (isPlatformBrowser (platformId d)) then mret tt
  else
    match svg with
    | None => mthrow "TypeError"
    | Some r =>
        tree ← deref r;
        assign r (Scripts.stripped tree);;
        let scriptsToEval := Scripts.scriptsToEval tree in
        if should_run scriptsToEval d then
          run_scripts scriptsToEval;;
          modify (λ d, set_ranScripts
                         (mark_ran (property_key (inlineSVG (inputs d)))
                            (_ranScripts d)) d)
        else mret tt
    end.

(** [if (this.removeSVGAttributes && isPlatformBrowser(this.platformId))
     SvgUtil.removeAttributes(svg, this.removeSVGAttributes)] *)
Definition strip_attributes (r : Ref) : M unit :=
  d ← this;
  match removeSVGAttributes (inputs d) with
  | Some names =>
      if isPlatformBrowser (platformId d) then
        tree ← deref r;
        assign r (removeAttributes (env d) tree names)
      else mret tt
  | None => mret tt
  end.

(** [if (this.onSVGLoaded) svg = this.onSVGLoaded(svg, host)]: what the hook
    returns is the element from here on, also when it returns nothing.  The
    hook is taken as a function of the tree of the element it is given, and
    what it returns is held as an element of its own. *)
Definition apply_hook (r : Ref) : M (option Ref) :=
  d ← this;
  match onSVGLoaded (inputs d) with
  | Some hook =>
      tree ← deref r;
      match hook tree with
      | Some tree' => r' ← alloc tree'; mret (Some r')
      | None => mret None
      end
  | None => mret (Some r)
  end.

(** [if (this.forceEvalStyles) svg.querySelectorAll('style').forEach(..)] *)
Definition force_styles (svg : option Ref) : M unit :=
  d ← this;
  if forceEvalStyles (inputs d) then
    match svg with
    | None => mthrow "TypeError"
    | Some r => tree ← deref r; assign r (forceStyles tree)
    end
  else mret tt.

(** [_processSvg(svg)] *)
Definition _processSvg (svg : option Ref) : M unit :=
  match svg with
  | None => mret tt
  | Some r =>
      strip_attributes r;;
      svg ← apply_hook r;
      _insertEl svg;;
      _evalScripts svg;;
      force_styles svg;;
      emit (SVGInserted svg)
  end.

(** The [next] callback given to [subscribe]. *)
Definition on_next (svg : option Ref) : M unit :=
  d ← this;
  svg ← (if isUrlSymbol (env d) (inlineSVG (inputs d)) then
           match inlineSVG (inputs d) with
           | None => mthrow "TypeError"
           | Some url =>
               let symbolId := split_hash url !! 1 in
               doc ← match svg with
                     | Some r => tree ← deref r; mret (Some tree)
                     | None => mret None
                     end;
               match createSymbolSvg (env d) doc symbolId with
               | Normal sym => r' ← alloc sym; mret (Some r')
               | Thrown e => mthrow e
               end
           end
         else mret svg);
  _processSvg svg.

(** The [error] callback given to [subscribe]. *)
Definition on_error (err : string) : M unit := _fail err.

(** [this._subscription = this._svgCache.getSVG(url, cacheSVG).subscribe(..)] *)
Definition subscribe (url : string) (useCache : bool) : M unit :=
  emit (GetSVG url useCache);;
  d ← this;
  modify (set_subscriptions (subscriptions d ++ [Pending]));;
  modify (set_subscription (Some (length (subscriptions d)))).

(** [_insertSVG()] *)
Definition _insertSVG : M unit :=
  d ← this;
  if negb (isPlatformServer (platformId d)) && negb (_supportsSVG d)
  then mret tt
  else if negb (truthy (inlineSVG (inputs d)))
  then _fail "No URL passed to [inlineSVG]"
  else if bool_decide (inlineSVG (inputs d) = _prevUrl d)
  then mret tt
  else
    modify (set_prevUrl (inlineSVG (inputs d)));;
    subscribe (default "" (inlineSVG (inputs d))) (cacheSVG (inputs d)).

Definition platform_ok (d : Directive) : bool :=
  isPlatformBrowser (platformId d) || isPlatformServer (platformId d).

(** [ngOnInit()] *)
Definition ngOnInit : M unit :=
  d ← this;
  if negb (platform_ok d) then mret tt else _insertSVG.

(** [ngOnChanges(changes)]; the argument is [changes['inlineSVG']]. *)
Definition ngOnChanges (changes_inlineSVG : bool) : M unit :=
  d ← this;
  if negb (platform_ok d) then mret tt
  else if changes_inlineSVG then _insertSVG else mret tt.

(** [subscription.unsubscribe()] *)
Definition unsubscribe (i : nat) : M unit :=
  d ← this;
  match subscriptions d !! i with
  | Some Pending =>
      modify (set_subscriptions (<[i := Unsubscribed]> (subscriptions d)))
  | _ => mret tt
  end.

(** [ngOnDestroy()] *)
Definition ngOnDestroy : M unit :=
  d ← this;
  match _subscription d with
  | Some i => unsubscribe i
  | None => mret tt
  end.

(** The constructor. *)
Definition fresh (e : Env) (platform : Platform) (supportsSVG : bool)
  : Directive :=
  {| inputs := default_inputs; env := e; platformId := platform;
     _supportsSVG := supportsSVG; _prevUrl := None; _ranScripts := ∅;
     _subscription := None; _svgComp := false; heap := [];
     subscriptions := []; log := [] |}.

Definition construct : M unit :=
  d ← this;
  if negb (isPlatformServer (platformId d)) && negb (_supportsSVG d)
  then _fail "Embed SVG are not supported by this browser"
  else mret tt.

(** ** The instance in its environment *)

(** What the observable of a subscription delivers. *)
Inductive Outcome :=
| Next (svg : option Node)
| Error (err : string).

(** What can happen to an instance: the framework writes its inputs and
    calls its lifecycle hooks, and the cache delivers the outcome of a
    subscription. *)
Inductive Action :=
| SetInputs (i : Inputs)
| NgOnInit
| NgOnChanges (changes_inlineSVG : bool)
| NgOnDestroy
| Deliver (sub : nat) (o : Outcome).

(** Runs a method to its end; an exception that leaves it is reported and
    what was done before it stays done. *)
Definition exec (m : M unit) (d : Directive) : Directive :=
  match m d with
  | (Normal _, d') => d'
  | (Thrown e, d') => set_log (log d' ++ [Uncaught e]) d'
  end.

(** A subscriber is called at most once, and not after [unsubscribe].  The
    document handed over is an element object of its own. *)
Definition deliver (sub : nat) (o : Outcome) : M unit :=
  d ← this;
  match subscriptions d !! sub with
  | Some Pending =>
      modify (set_subscriptions (<[sub := Settled]> (subscriptions d)));;
      match o with
      | Next None => on_next None
      | Next (Some doc) => r ← alloc doc; on_next (Some r)
      | Error err => on_error err
      end
  | _ => mret tt
  end.

Definition step (d : Directive) (a : Action) : Directive :=
  match a with
  | SetInputs i => set_inputs i d
  | NgOnInit => exec ngOnInit d
  | NgOnChanges c => exec (ngOnChanges c) d
  | NgOnDestroy => exec ngOnDestroy d
  | Deliver sub o => exec (deliver sub o) d
  end.

Definition run (d : Directive) (actions : list Action) : Directive :=
  fold_left step actions d.

Definition create (e : Env) (platform : Platform) (supportsSVG : bool)
  : Directive :=
  exec construct (fresh e platform supportsSVG).

(** The states an instance can be in. *)
Inductive reachable : Directive → Prop :=
| reachable_create e p s : reachable (create e p s)
| reachable_step d a : reachable d → reachable (step d a).

(** ** Vocabulary of the statements *)

(** A method leaves the observation [f] of the instance as it was. *)
Definition keeps {X A : Type} (f : Directive → X) (m : M A) : Prop :=
  ∀ d, f (m d).2 = f d.

(** [f] looks at nothing that processing a document or failing writes. *)
Definition untouched {X : Type} (f : Directive → X) : Prop :=
  (∀ l d, f (set_log l d) = f d)
  ∧ (∀ h d, f (set_heap h d) = f d)
  ∧ (∀ c d, f (set_svgComp c d) = f d)
  ∧ (∀ r d, f (set_ranScripts r d) = f d).

(** What was given to the instance and does not change while a method runs. *)
Definition config (d : Directive) : Inputs * Env * Platform * bool :=
  (inputs d, env d, platformId d, _supportsSVG d).


(** The guard both [_insertSVG] and the constructor start with. *)
Definition svg_possible (d : Directive) : bool :=
  isPlatformServer (platformId d) || _supportsSVG d.

(** What [_insertEl(el)] asks of the insertion sink. *)
Definition sink_events (d : Directive) (el : option Ref) : list Event :=
  if injectComponent (inputs d) then
    (if _svgComp d then [] else [CreateComponent])
    ++ [ComponentContent el (replaceContents (inputs d)) (prepend (inputs d))]
  else [InsertEl el (replaceContents (inputs d)) (prepend (inputs d))].

(** The scripts that were run, in order. *)
Definition evaluated (l : list Event) : list string :=
  omap (λ e, match e with EvalScript text => Some text | _ => None end) l.

(** The failure notifications that were emitted, in order. *)
Definition failures (l : list Event) : list string :=
  omap (λ e, match e with SVGFailed msg => Some msg | _ => None end) l.

(** Every script of the list returns when it is run. *)
Definition all_return (d : Directive) (l : list string) : bool :=
  forallb (λ text, bool_decide (runScript (env d) text = None)) l.

(** The scripts [_evalScripts] runs for an element with tree [w]. *)
Definition to_run (d : Directive) (w : Node) : list string :=
  if isPlatformBrowser (platformId d)
     && should_run (Scripts.scriptsToEval w) d
  then Scripts.scriptsToEval w else [].

(** The tree a document has when [_processSvg] has removed attributes and
    called the hook: the tree of the element that is inserted. *)
Definition attributes_removed (d : Directive) (t : Node) : Node :=
  match removeSVGAttributes (inputs d) with
  | Some names =>
      if isPlatformBrowser (platformId d)
      then removeAttributes (env d) t names else t
  | None => t
  end.

Definition transformed (d : Directive) (t : Node) : option Node :=
  match onSVGLoaded (inputs d) with
  | Some hook => hook (attributes_removed d t)
  | None => Some (attributes_removed d t)
  end.

(** The document [_processSvg] is given when the tree [t] arrives from the
    cache: [t], or the symbol made from it when the URL is a symbol URL. *)
Definition resolved (d : Directive) (t : Node) : Completion Node :=
  if isUrlSymbol (env d) (inlineSVG (inputs d)) then
    match inlineSVG (inputs d) with
    | Some url => createSymbolSvg (env d) (Some t) (split_hash url !! 1)
    | None => Thrown "TypeError"
    end
  else Normal t.

(** The element that is inserted when a document arrives: the new element
    of the document, or of the symbol made from it, or of what the hook
    returned. *)
Definition arriving_ref (d : Directive) : Ref :=
  length (heap d)
  + (if isUrlSymbol (env d) (inlineSVG (inputs d)) then 1 else 0)
  + (if onSVGLoaded (inputs d) is Some _ then 1 else 0).

(** The element that is inserted: the one the hook returned, when there is
    a hook. *)
Definition working_ref (d : Directive) (r : Ref) : Ref :=
  match onSVGLoaded (inputs d) with
  | Some _ => length (heap d)
  | None => r
  end.

(** The tree of the inserted element when [_processSvg] is through. *)
Definition finished (d : Directive) (w : Node) : Node :=
  let w' := if isPlatformBrowser (platformId d)
            then Scripts.stripped w else w in
  if forceEvalStyles (inputs d) then forceStyles w' else w'.

(** The contents handed to the insertion sink, in order. *)
Definition inserted (l : list Event) : list (option Ref) :=
  omap (λ e, match e with
             | InsertEl el _ _ | ComponentContent el _ _ => Some el
             | _ => None
             end) l.

(** The requests made to the cache, in order. *)
Definition requests (l : list Event) : list (string * bool) :=
  omap (λ e, match e with GetSVG u c => Some (u, c) | _ => None end) l.

(** The values of the [type] attribute with which a script is JavaScript:
    no attribute, the empty string and the two names of the language. *)
Definition script_types : list (option string) :=
  [None; Some ""; Some "application/ecmascript";
   Some "application/javascript"].

(** The texts of the scripts of those types below the root of a tree, in
    document order. *)
Definition script_texts (svg : Node) : list string :=
  map Dom.textContent
    (filter (λ s, Dom.getAttribute "type" s ∈ script_types)
       (Dom.querySelectorAll "script" svg)).


(** The calls of the framework that request a load. *)
Definition load_request (a : Action) : Prop :=
  a = NgOnInit ∨ a = NgOnChanges true.

(** What a failure that went through [_fail] has left behind when the
    instance was [d] before and is [d'] after: the notification, and with a
    fallback URL one new [IMG] element for it, handed to the insertion sink
    as [_insertEl] hands over any content. *)
Definition reported (msg : string) (d d' : Directive) : Prop :=
  log d'
  = log d ++ SVGFailed msg
      :: (if truthy (fallbackImgUrl (inputs d))
          then sink_events d (Some (length (heap d))) else [])
  ∧ heap d'
    = heap d ++ (if truthy (fallbackImgUrl (inputs d))
                 then [Dom.createImg (default "" (fallbackImgUrl (inputs d)))]
                 else [])
  ∧ inserted (log d')
    = inserted (log d) ++ (if truthy (fallbackImgUrl (inputs d))
                           then [Some (length (heap d))] else [])
  ∧ failures (log d') = failures (log d) ++ [msg]
  ∧ requests (log d') = requests (log d)
  ∧ subscriptions d' = subscriptions d
  ∧ _subscription d' = _subscription d.

(** ** Vocabulary of the further properties *)

(** A method keeps the property [I] of the instance. *)
Definition preserves {A : Type} (I : Directive → Prop) (m : M A) : Prop :=
  ∀ d, I d → I (m d).2.

(** The events that report on a load, as opposed to a request to the cache
    and to the work of the insertion sink. *)
Definition plain (e : Event) : bool :=
  match e with
  | EvalScript _ | SVGInserted _ | SVGFailed _ | Uncaught _ => true
  | _ => false
  end.

(** The subscription made last, of [n] made. *)
Definition latest (n : nat) : option nat :=
  match n with
  | 0 => None
  | S k => Some k
  end.

(** No two neighbours in the list are the same. *)
Fixpoint no_repeat (l : list string) : Prop :=
  match l with
  | a :: (b :: _) as rest => a ≠ b ∧ no_repeat rest
  | _ => True
  end.

(** The URLs asked of the cache, in order. *)
Definition requested (d : Directive) : list string :=
  (requests (log d)).*1.

(** What holds of the requests an instance has made to the cache. *)
Definition requests_inv (d : Directive) : Prop :=
  length (subscriptions d) = length (requested d)
  ∧ _subscription d = latest (length (subscriptions d))
  ∧ _prevUrl d = last (requested d)
  ∧ Forall (λ u, u ≠ "") (requested d)
  ∧ no_repeat (requested d).

(** How often the component was created. *)
Definition components (l : list Event) : nat :=
  length (omap (λ e, match e with
                     | CreateComponent => Some tt
                     | _ => None
                     end) l).

(** The elements [onSVGInserted] emitted, in order. *)
Definition notified (l : list Event) : list (option Ref) :=
  omap (λ e, match e with SVGInserted svg => Some svg | _ => None end) l.

(** The string has no [#] in it. *)
Fixpoint hashless (s : string) : bool :=
  match s with
  | EmptyString => true
  | String c s' => negb (Ascii.eqb c "#"%char) && hashless s'
  end.

(** ** Sample collaborators and documents *)

Module Sample.

Definition has_hash (url : option string) : bool :=
  match url with
  | Some u => 1 <? length (split_hash u)
  | None => false
  end.

Definition has_id (id : string) (n : Node) : bool :=
  match Dom.getAttribute "id" n with
  | Some v => String.eqb v id
  | None => false
  end.

Definition symbol_svg (doc : option Node) (symbolId : option string)
  : Completion Node :=
  match doc, symbolId with
  | Some tree, Some id =>
      match filter (λ n, has_id id n = true) (Dom.descendants tree) with
      | sym :: _ => Normal (Elem 0 "svg" [] [sym])
      | [] => Thrown "Symbol not found"
      end
  | _, _ => Thrown "TypeError"
  end.

Definition without (names : list string) (a : string * string) : Prop :=
  a.1 ∉ names.

Definition remove_root_attributes (n : Node) (names : list string) : Node :=
  match n with
  | Text s => Text s
  | Elem i t a ch => Elem i t (filter (without names) a) ch
  end.

(** A script throws when its text starts with [throw]. *)
Definition window (text : string) : option string :=
  if String.prefix "throw" text then Some "Error" else None.

Definition env : Env :=
  mkEnv has_hash symbol_svg remove_root_attributes window.

Definition plain_doc : Node :=
  Elem 1 "svg" [("id", "logo")] [Elem 2 "path" [("d", "M0 0")] []].

Definition script_doc : Node :=
  Elem 1 "svg" []
    [Elem 2 "script" [] [Text "init()"];
     Elem 3 "g" []
       [Elem 4 "script" [("type", "text/plain")] [Text "data"];
        Elem 5 "script" [("type", "application/javascript")]
          [Text "start()"]]].

Definition data_doc : Node :=
  Elem 1 "svg" []
    [Elem 2 "script" [("type", "text/plain")] [Text "data"];
     Elem 3 "script" [("type", "module")] [Text "import()"]].

Definition sprite_doc : Node :=
  Elem 1 "svg" []
    [Elem 2 "symbol" [("id", "logo"); ("viewBox", "0 0 8 8")]
       [Elem 3 "path" [("d", "M0 0")] []]].

Definition throwing_doc : Node :=
  Elem 1 "svg" []
    [Elem 2 "script" [] [Text "init()"];
     Elem 3 "script" [] [Text "throw 1"];
     Elem 4 "script" [] [Text "late()"]].

Definition url (u : string) : Inputs := with_url (Some u) default_inputs.

Definition with_policy (p : EvalScripts) (i : Inputs) : Inputs :=
  {| inlineSVG := inlineSVG i; replaceContents := replaceContents i;
     prepend := prepend i; injectComponent := injectComponent i;
     cacheSVG := cacheSVG i; removeSVGAttributes := removeSVGAttributes i;
     forceEvalStyles := forceEvalStyles i; evalScripts := p;
     fallbackImgUrl := fallbackImgUrl i; onSVGLoaded := onSVGLoaded i |}.

Definition with_fallback (u : string) (i : Inputs) : Inputs :=
  {| inlineSVG := inlineSVG i; replaceContents := replaceContents i;
     prepend := prepend i; injectComponent := injectComponent i;
     cacheSVG := cacheSVG i; removeSVGAttributes := removeSVGAttributes i;
     forceEvalStyles := forceEvalStyles i; evalScripts := evalScripts i;
     fallbackImgUrl := Some u; onSVGLoaded := onSVGLoaded i |}.

Definition with_hook (h : Node → option Node) (i : Inputs) : Inputs :=
  {| inlineSVG := inlineSVG i; replaceContents := replaceContents i;
     prepend := prepend i; injectComponent := injectComponent i;
     cacheSVG := cacheSVG i; removeSVGAttributes := removeSVGAttributes i;
     forceEvalStyles := forceEvalStyles i; evalScripts := evalScripts i;
     fallbackImgUrl := fallbackImgUrl i; onSVGLoaded := Some h |}.

Definition with_placement (replace pre inject : bool) (i : Inputs) : Inputs :=
  {| inlineSVG := inlineSVG i; replaceContents := replace;
     prepend := pre; injectComponent := inject;
     cacheSVG := cacheSVG i; removeSVGAttributes := removeSVGAttributes i;
     forceEvalStyles := forceEvalStyles i; evalScripts := evalScripts i;
     fallbackImgUrl := fallbackImgUrl i; onSVGLoaded := onSVGLoaded i |}.

(** An instance in a browser. *)
Definition browser : Directive := create env Browser true.

(** The instance after its first load of [a.svg] was requested. *)
Definition loading_a : Directive :=
  run browser [SetInputs (url "a.svg"); NgOnInit].

(** An instance with the given policy whose load of [a.svg] is pending,
    and an element with the given tree. *)
Definition holding (p : EvalScripts) (t : Node) : Directive :=
  set_heap [t] (run browser [SetInputs (with_policy p (url "a.svg"));
                             NgOnInit]).

(** The instance on a platform, with a hook that returns nothing, while its
    load of [a.svg] is pending. *)
Definition hook_returns_nothing (p : Platform) : Directive :=
  run (create env p true)
    [SetInputs (with_hook (λ _, None) (url "a.svg")); NgOnInit].

(** A hook that puts the element into a group. *)
Definition wrap (svg : Node) : option Node :=
  Some (Elem 9 "svg" [] [Elem 8 "g" [("class", "wrapped")] [svg]]).

(** The instance with the hook [wrap], while its load of [a.svg] is
    pending. *)
Definition wrapping : Directive :=
  run browser [SetInputs (with_hook wrap (url "a.svg")); NgOnInit].

(** An instance on the server whose load of [a.svg] is pending, with
    attributes to remove. *)
Definition on_server : Directive :=
  run (create env Server false)
    [SetInputs
       {| inlineSVG := Some "a.svg"; replaceContents := true;
          prepend := false; injectComponent := false; cacheSVG := true;
          removeSVGAttributes := Some ["id"]; forceEvalStyles := false;
          evalScripts := always; fallbackImgUrl := None;
          onSVGLoaded := None |};
     NgOnInit].

(** An instance whose load of the symbol [logo] of [sprite.svg] is
    pending, and an element with the tree of [sprite_doc]. *)
Definition loading_symbol : Directive :=
  set_heap [sprite_doc]
    (run browser [SetInputs (url "sprite.svg#logo"); NgOnInit]).

(** An instance that inserts through the component, after two documents
    arrived. *)
Definition component_twice : Directive :=
  run browser
    [SetInputs (with_placement true false true (url "a.svg")); NgOnInit;
     Deliver 0 (Next (Some plain_doc));
     SetInputs (with_placement false true true (url "b.svg"));
     NgOnChanges true;
     Deliver 1 (Next (Some plain_doc))].

(** An instance with the given policy that was asked for [a.svg], then for
    [b.svg], then for [a.svg] again, with all three loads pending. *)
Definition asked_twice (p : EvalScripts) : Directive :=
  run browser
    [SetInputs (with_policy p (url "a.svg")); NgOnInit;
     SetInputs (with_policy p (url "b.svg")); NgOnChanges true;
     SetInputs (with_policy p (url "a.svg")); NgOnChanges true].

(** The instance after [b.svg] was requested while [a.svg] is pending. *)
Definition superseded : Directive :=
  run loading_a [SetInputs (url "b.svg"); NgOnChanges true].

(** The instance after the load of [a.svg] failed. *)
Definition failed_a : Directive :=
  step loading_a (Deliver 0 (Error "404")).

End Sample.

(** ** Facts about the DOM operations *)

Lemma Node_rect_list (P : Node → Prop) :
  (∀ s, P (Text s)) →
  (∀ i t a ch, Forall P ch → P (Elem i t a ch)) →
  ∀ n, P n.
Proof.
  intros HT HE. fix IH 1. intros [s|i t a ch]; [apply HT|apply HE].
  induction ch as [|c ch IHch]; constructor; [apply IH|exact IHch].
Qed.

Section DomFacts.
Import Dom Scripts.

Lemma same_node_label (v a b : Node) :
  label a = label b → same_node v a = same_node v b.
Proof.
  destruct a, b; simpl; try congruence.
  - destruct v; reflexivity.
  - intros [= -> -> ->]. reflexivity.
Qed.

Lemma is_eligible_label (a b : Node) :
  label a = label b → is_eligible a = is_eligible b.
Proof.
  unfold is_eligible. destruct a, b; simpl; congruence.
Qed.

Lemma has_tag_label (t : string) (a b : Node) :
  label a = label b → has_tag t a = has_tag t b.
Proof.
  destruct a, b; simpl; congruence.
Qed.

Lemma label_detach (v n : Node) : label (detach v n) = label n.
Proof. destruct n; reflexivity. Qed.

Lemma same_node_refl_label (a b : Node) :
  label a = label b → is_Some (label a) → same_node a b = true.
Proof.
  destruct a, b; simpl; try congruence.
  - intros _ [x [=]].
  - intros [= -> -> ->] _. apply Nat.eqb_refl.
Qed.

Lemma elem_of_flat_map {A B} (f : A → list B) (l : list A) (y : B) :
  y ∈ flat_map f l ↔ ∃ x, x ∈ l ∧ y ∈ f x.
Proof.
  rewrite list_elem_of_In, in_flat_map.
  split; intros (x & Hx & Hy); exists x; split;
    first [by apply list_elem_of_In|by apply list_elem_of_In in Hx
          |by apply list_elem_of_In in Hy].
Qed.

Lemma elem_of_map {A B} (f : A → B) (l : list A) (y : B) :
  y ∈ map f l ↔ ∃ x, y = f x ∧ x ∈ l.
Proof.
  rewrite list_elem_of_In, in_map_iff.
  split; intros (x & Hx & Hy); exists x; split;
    first [done|by apply list_elem_of_In|by apply list_elem_of_In in Hy].
Qed.

(** The children kept by [detach]: each is a pruned child of the original
    node, and none is the detached node. *)
Lemma elem_of_detached_children (v c' : Node) (ch : list Node) :
  c' ∈ filter (λ c, same_node v c = false) (map (detach v) ch) →
  ∃ c, c ∈ ch ∧ c' = detach v c ∧ same_node v c = false.
Proof.
  intros Hc'. apply list_elem_of_filter in Hc' as [Hv Hc'].
  apply elem_of_map in Hc' as (c & -> & Hc).
  exists c. split; [exact Hc|split; [reflexivity|]].
  rewrite <- Hv. apply same_node_label. symmetry. apply label_detach.
Qed.

(** Detaching a node only removes nodes: what is left carries labels of the
    original tree, and none of the nodes left is the detached one. *)
Lemma subtree_detach (v n m : Node) :
  m ∈ subtree (detach v n) →
  same_node v n = false →
  same_node v m = false ∧ ∃ m0, m0 ∈ subtree n ∧ label m0 = label m.
Proof.
  revert m. induction n as [s|i t a ch IH] using Node_rect_list; intros m.
  - simpl. intros Hm Hv. apply list_elem_of_singleton in Hm as ->.
    split; [exact Hv|]. exists (Text s). split; [left|reflexivity].
  - cbn [detach subtree]. intros Hm Hv.
    apply elem_of_cons in Hm as [->|Hm].
    + split; [exact Hv|]. eexists. split; [left|reflexivity].
    + apply elem_of_flat_map in Hm as (c' & Hc' & Hm).
      apply elem_of_detached_children in Hc' as (c & Hc & -> & Hvc).
      rewrite Forall_forall in IH.
      destruct (IH c Hc m Hm Hvc) as (Hvm & m0 & Hm0 & Hl).
      split; [exact Hvm|]. exists m0. split; [|exact Hl].
      right. apply elem_of_flat_map. exists c. split; assumption.
Qed.

Lemma descendants_detach (v n m : Node) :
  m ∈ descendants (detach v n) →
  same_node v m = false ∧ ∃ m0, m0 ∈ descendants n ∧ label m0 = label m.
Proof.
  destruct n as [s|i t a ch]; [intros H; inversion H|].
  unfold descendants. cbn [detach childNodes]. intros Hm.
  apply elem_of_flat_map in Hm as (c' & Hc' & Hm).
  apply elem_of_detached_children in Hc' as (c & Hc & -> & Hvc).
  destruct (subtree_detach v c m Hm Hvc) as (Hvm & m0 & Hm0 & Hl).
  split; [exact Hvm|]. exists m0. split; [|exact Hl].
  apply elem_of_flat_map. exists c. split; assumption.
Qed.

(** The loop of [_evalScripts] pushes the text of every eligible script, in
    document order. *)
Lemma fetch_texts (l : list Node) (acc : list string * Node) :
  (fold_left fetch_step l acc).1
  = acc.1 ++ map textContent (filter (λ s, is_eligible s = true) l).
Proof.
  revert acc. induction l as [|s l IH]; intros acc; simpl.
  - by rewrite app_nil_r.
  - rewrite IH. unfold fetch_step. rewrite filter_cons.
    destruct (is_eligible s) eqn:He; case_decide; try done.
    simpl. by rewrite <- app_assoc.
Qed.

(** What the loop leaves of the tree: only nodes of the original tree, and
    none of the eligible scripts the loop went through. *)
Lemma fetch_tree (l : list Node) (acc : list string * Node) (m : Node) :
  m ∈ descendants (fold_left fetch_step l acc).2 →
  (∃ m0, m0 ∈ descendants acc.2 ∧ label m0 = label m)
  ∧ ∀ s, s ∈ l → is_eligible s = true → same_node s m = false.
Proof.
  revert acc. induction l as [|s l IH]; intros acc; simpl.
  - intros Hm. split; [by exists m|]. intros s Hs. inversion Hs.
  - intros Hm. destruct (IH _ Hm) as [(m1 & Hm1 & Hl1) Hrest].
    unfold fetch_step in Hm1. destruct (is_eligible s) eqn:He.
    + simpl in Hm1. apply descendants_detach in Hm1 as (Hv & m0 & Hm0 & Hl0).
      split; [exists m0; split; [done|congruence]|].
      intros s' Hs' He'. apply elem_of_cons in Hs' as [->|Hs'].
      * rewrite <- Hv. by apply same_node_label.
      * by apply Hrest.
    + split; [by exists m1|].
      intros s' Hs' He'. apply elem_of_cons in Hs' as [->|Hs'].
      * congruence.
      * by apply Hrest.
Qed.

(** After the loop no eligible script is left anywhere below the root. *)
Lemma stripped_no_eligible (svg m : Node) :
  m ∈ querySelectorAll "script" (stripped svg) → is_eligible m = false.
Proof.
  unfold querySelectorAll, stripped, fetch_scripts.
  intros Hm. apply list_elem_of_filter in Hm as [Htag Hm].
  destruct (fetch_tree _ _ _ Hm) as [(m0 & Hm0 & Hl) Hnot].
  destruct (is_eligible m) eqn:He; [exfalso|reflexivity].
  assert (same_node m0 m = false) as Hne.
  { apply Hnot.
    - apply list_elem_of_filter. split; [|exact Hm0].
      by rewrite (has_tag_label _ _ _ Hl).
    - by rewrite (is_eligible_label _ _ Hl). }
  rewrite same_node_refl_label in Hne; [done|done|].
  rewrite Hl. destruct m; [done|by eexists].
Qed.

Lemma scriptsToEval_eq (svg : Node) :
  scriptsToEval svg
  = map textContent
      (filter (λ s, is_eligible s = true) (querySelectorAll "script" svg)).
Proof. unfold scriptsToEval, fetch_scripts. by rewrite fetch_texts. Qed.

(** The test of the loop holds of the types in [script_types] and of no
    other. *)
Lemma eligible_script_types (scriptType : option string) :
  eligible scriptType = true ↔ scriptType ∈ script_types.
Proof.
  unfold eligible, script_types. rewrite !elem_of_cons, elem_of_nil.
  destruct scriptType as [t|].
  - rewrite !orb_true_iff, !String.eqb_eq. split.
    + intros [[->| ->]| ->]; auto.
    + intros [?|[[= ->]|[[= ->]|[[= ->]|[]]]]]; [done|auto..].
  - split; auto.
Qed.

Lemma scriptsToEval_types (svg : Node) :
  scriptsToEval svg = script_texts svg.
Proof.
  rewrite scriptsToEval_eq. unfold script_texts. f_equal.
  apply list_filter_iff. intros s. apply eligible_script_types.
Qed.

End DomFacts.

(** ** What the methods leave unchanged *)

Section Frames.
Context {X : Type} (f : Directive → X).

Lemma keeps_ret {A} (a : A) : keeps f (mret a).
Proof. intros d. reflexivity. Qed.

Lemma keeps_throw {A} (e : string) : keeps f (mthrow e : M A).
Proof. intros d. reflexivity. Qed.

Lemma keeps_this : keeps f this.
Proof. intros d. reflexivity. Qed.

Lemma keeps_bind {A B} (m : M A) (k : A → M B) :
  keeps f m → (∀ a, keeps f (k a)) → keeps f (m ≫= k).
Proof.
  intros Hm Hk d. specialize (Hm d). unfold mbind, M_bind.
  destruct (m d) as [[a|e] d']; simpl in *; [|exact Hm].
  rewrite Hk. exact Hm.
Qed.

Lemma keeps_modify (g : Directive → Directive) :
  (∀ d, f (g d) = f d) → keeps f (modify g).
Proof. intros Hg d. apply Hg. Qed.

Hypothesis f_untouched : untouched f.

Lemma keeps_emit (e : Event) : keeps f (emit e).
Proof. intros d. apply f_untouched. Qed.

Lemma keeps_alloc (n : Node) : keeps f (alloc n).
Proof. intros d. apply f_untouched. Qed.

Lemma keeps_assign (r : Ref) (n : Node) : keeps f (assign r n).
Proof. intros d. apply f_untouched. Qed.

Lemma keeps_deref (r : Ref) : keeps f (deref r).
Proof.
  unfold deref. apply keeps_bind; [apply keeps_this|intros d].
  destruct (heap d !! r); [apply keeps_ret|apply keeps_throw].
Qed.

Ltac frame :=
  repeat match goal with
    | |- keeps _ (mret _) => apply keeps_ret
    | |- keeps _ (mthrow _) => apply keeps_throw
    | |- keeps _ this => apply keeps_this
    | |- keeps _ (emit _) => apply keeps_emit
    | |- keeps _ (alloc _) => apply keeps_alloc
    | |- keeps _ (assign _ _) => apply keeps_assign
    | |- keeps _ (deref _) => apply keeps_deref
    | |- keeps _ (modify _) => apply keeps_modify; intros ?; apply f_untouched
    | |- keeps _ (mbind _ _) => apply keeps_bind; [|intros ?]
    | |- keeps _ (match ?x with _ => _ end) => destruct x
    | |- keeps _ (let _ := _ in _) => cbv zeta
    end.

Lemma keeps_insertEl (el : option Ref) : keeps f (_insertEl el).
Proof. unfold _insertEl. frame. Qed.

Lemma keeps_fail (msg : string) : keeps f (_fail msg).
Proof. unfold _fail. frame. apply keeps_insertEl. Qed.

Lemma keeps_run_scripts (l : list string) : keeps f (run_scripts l).
Proof. induction l as [|s l IH]; simpl; frame. exact IH. Qed.

Lemma keeps_evalScripts (svg : option Ref) : keeps f (_evalScripts svg).
Proof. unfold _evalScripts. frame; apply keeps_run_scripts. Qed.

Lemma keeps_processSvg (svg : option Ref) : keeps f (_processSvg svg).
Proof.
  unfold _processSvg, strip_attributes, apply_hook, force_styles.
  frame; first [apply keeps_insertEl|apply keeps_evalScripts].
Qed.

Lemma keeps_on_next (svg : option Ref) : keeps f (on_next svg).
Proof. unfold on_next. frame; apply keeps_processSvg. Qed.

Lemma keeps_on_error (err : string) : keeps f (on_error err).
Proof. apply keeps_fail. Qed.

End Frames.

Lemma untouched_config : untouched config.
Proof. repeat split. Qed.

Lemma untouched_prevUrl : untouched _prevUrl.
Proof. repeat split. Qed.

Lemma untouched_subscriptions : untouched subscriptions.
Proof. repeat split. Qed.

Lemma untouched_subscription : untouched _subscription.
Proof. repeat split. Qed.

(** Running a method to its end keeps what the method keeps, as long as the
    observation does not look at the log. *)
Lemma exec_keeps {X} (f : Directive → X) (m : M unit) (d : Directive) :
  (∀ l d, f (set_log l d) = f d) → keeps f m → f (exec m d) = f d.
Proof.
  intros Hlog Hm. unfold exec. specialize (Hm d).
  destruct (m d) as [[[]|e] d']; simpl in *; [exact Hm|].
  rewrite Hlog. exact Hm.
Qed.

(** Delivering an outcome changes neither the remembered URL nor anything
    given to the instance. *)
Lemma keeps_deliver {X} (f : Directive → X) (sub : nat) (o : Outcome) :
  untouched f → (∀ s d, f (set_subscriptions s d) = f d) →
  keeps f (deliver sub o).
Proof.
  intros Hf Hs. unfold deliver.
  apply keeps_bind; [apply keeps_this|intros d].
  destruct (subscriptions d !! sub) as [[]|]; try apply keeps_ret.
  apply keeps_bind; [apply keeps_modify; intros ?; apply Hs|intros _].
  destruct o as [[doc|]|err].
  - apply keeps_bind; [by apply keeps_alloc|intros r]. by apply keeps_on_next.
  - by apply keeps_on_next.
  - by apply keeps_on_error.
Qed.

(** ** The insertion sink and the failure path *)

Lemma set_log_same (d : Directive) : set_log (log d) d = d.
Proof. by destruct d. Qed.

Lemma insertEl_spec (el : option Ref) (d : Directive) :
  ∃ d', _insertEl el d = (Normal tt, d')
        ∧ log d' = log d ++ sink_events d el
        ∧ heap d' = heap d
        ∧ _ranScripts d' = _ranScripts d
        ∧ config d' = config d.
Proof.
  unfold _insertEl, sink_events, config, mbind, M_bind, this, emit, modify.
  destruct (injectComponent (inputs d)); [destruct (_svgComp d)|];
    simpl; eexists; (split; [reflexivity|]); simpl;
    rewrite <- ?app_assoc; done.
Qed.

Lemma fail_spec (msg : string) (d : Directive) :
  ∃ d', _fail msg d = (Normal tt, d')
        ∧ log d'
          = log d ++ SVGFailed msg
              :: (if truthy (fallbackImgUrl (inputs d))
                  then sink_events d (Some (length (heap d))) else [])
        ∧ heap d'
          = heap d ++ (if truthy (fallbackImgUrl (inputs d))
                       then [Dom.createImg
                               (default "" (fallbackImgUrl (inputs d)))]
                       else []).
Proof.
  unfold _fail, mbind at 1 2, M_bind at 1 2, this, emit, modify. simpl.
  destruct (truthy (fallbackImgUrl (inputs d))) eqn:Ht.
  - unfold mbind, M_bind, alloc. simpl.
    match goal with |- context [_insertEl ?e ?x] =>
      destruct (insertEl_spec e x) as (d' & -> & Hlog & Hheap & _) end.
    exists d'. split; [reflexivity|]. rewrite Hlog, Hheap. simpl.
    rewrite <- app_assoc. done.
  - eexists. split; [reflexivity|]. simpl. by rewrite app_nil_r.
Qed.

(** [_insertSVG] by cases, as its [if]s read. *)
Lemma insertSVG_eq (d : Directive) :
  _insertSVG d
  = if negb (svg_possible d) then (Normal tt, d)
    else if negb (truthy (inlineSVG (inputs d)))
    then _fail "No URL passed to [inlineSVG]" d
    else if bool_decide (inlineSVG (inputs d) = _prevUrl d)
    then (Normal tt, d)
    else subscribe (default "" (inlineSVG (inputs d))) (cacheSVG (inputs d))
           (set_prevUrl (inlineSVG (inputs d)) d).
Proof.
  unfold _insertSVG, svg_possible, mbind at 1, M_bind at 1, this.
  rewrite negb_orb.
  destruct (negb (isPlatformServer (platformId d)) && negb (_supportsSVG d));
    [reflexivity|].
  destruct (negb (truthy (inlineSVG (inputs d)))); [reflexivity|].
  destruct (bool_decide (inlineSVG (inputs d) = _prevUrl d)); reflexivity.
Qed.

Lemma subscribe_eq (url : string) (c : bool) (d : Directive) :
  subscribe url c d
  = (Normal tt,
     set_subscription (Some (length (subscriptions d)))
       (set_subscriptions (subscriptions d ++ [Pending])
          (set_log (log d ++ [GetSVG url c]) d))).
Proof. reflexivity. Qed.

(** ** The URL the instance remembers *)

Lemma insertSVG_prevUrl (d : Directive) :
  _prevUrl d ≠ Some "" → _prevUrl (_insertSVG d).2 ≠ Some "".
Proof.
  intros Hd. rewrite insertSVG_eq.
  destruct (negb (svg_possible d)); [exact Hd|].
  destruct (truthy (inlineSVG (inputs d))) eqn:Ht; simpl.
  - destruct (bool_decide _); [exact Hd|]. rewrite subscribe_eq. simpl.
    intros E. rewrite E in Ht. discriminate.
  - rewrite keeps_fail by apply untouched_prevUrl. exact Hd.
Qed.

Lemma exec_proj {X} (f : Directive → X) (m : M unit) (d : Directive) :
  (∀ l d, f (set_log l d) = f d) → f (exec m d) = f (m d).2.
Proof.
  intros Hlog. unfold exec. destruct (m d) as [[[]|e] d']; simpl; [done|].
  apply Hlog.
Qed.

Lemma step_prevUrl (d : Directive) (a : Action) :
  _prevUrl d ≠ Some "" → _prevUrl (step d a) ≠ Some "".
Proof.
  intros Hd. destruct a as [i| |c| |sub o]; simpl.
  - exact Hd.
  - rewrite exec_proj by done. unfold ngOnInit, mbind, M_bind, this.
    destruct (negb (platform_ok d)); [exact Hd|]. by apply insertSVG_prevUrl.
  - rewrite exec_proj by done. unfold ngOnChanges, mbind, M_bind, this.
    destruct (negb (platform_ok d)); [exact Hd|].
    destruct c; [by apply insertSVG_prevUrl|exact Hd].
  - rewrite exec_proj by done. unfold ngOnDestroy, unsubscribe.
    unfold mbind, M_bind, this, modify.
    destruct (_subscription d) as [i|]; [|exact Hd].
    destruct (subscriptions d !! i) as [[]|]; exact Hd.
  - rewrite exec_keeps; [exact Hd|done|].
    apply keeps_deliver; [apply untouched_prevUrl|done].
Qed.

(** An instance never remembers the empty URL. *)
Lemma reachable_prevUrl (d : Directive) :
  reachable d → _prevUrl d ≠ Some "".
Proof.
  induction 1 as [e p s|d a _ IH].
  - unfold create. rewrite exec_keeps; [done|done|].
    unfold construct. apply keeps_bind; [apply keeps_this|intros d].
    destruct (_ && _); [apply keeps_fail, untouched_prevUrl|apply keeps_ret].
  - by apply step_prevUrl.
Qed.

Lemma reachable_run (d : Directive) (actions : list Action) :
  reachable d → reachable (run d actions).
Proof.
  revert d. induction actions as [|a l IH]; intros d Hd; [exact Hd|].
  apply IH. by constructor.
Qed.

Lemma requests_sink_events (d : Directive) (el : option Ref) :
  requests (sink_events d el) = [].
Proof.
  unfold sink_events.
  destruct (injectComponent (inputs d)); [destruct (_svgComp d)|]; reflexivity.
Qed.

Lemma failures_app (l k : list Event) :
  failures (l ++ k) = failures l ++ failures k.
Proof. apply omap_app. Qed.

Lemma requests_app (l k : list Event) :
  requests (l ++ k) = requests l ++ requests k.
Proof. apply omap_app. Qed.

Lemma evaluated_app (l k : list Event) :
  evaluated (l ++ k) = evaluated l ++ evaluated k.
Proof. apply omap_app. Qed.

Lemma inserted_app (l k : list Event) :
  inserted (l ++ k) = inserted l ++ inserted k.
Proof. apply omap_app. Qed.

Lemma inserted_sink_events (d : Directive) (el : option Ref) :
  inserted (sink_events d el) = [el].
Proof.
  unfold sink_events.
  destruct (injectComponent (inputs d)); [destruct (_svgComp d)|]; reflexivity.
Qed.

Lemma failures_sink_events (d : Directive) (el : option Ref) :
  failures (sink_events d el) = [].
Proof.
  unfold sink_events.
  destruct (injectComponent (inputs d)); [destruct (_svgComp d)|]; reflexivity.
Qed.

(** ** The short-circuit on an unchanged URL *)

(** C1. When a load is requested with the URL the instance loaded last, the
    call does nothing at all: the instance, the log of what it asked of the
    cache and of the sink, and the element objects are as before.  Only the
    URL is compared: every other input may have changed with it. *)
Theorem same_url_is_noop (d : Directive) (i : Inputs) (u : string) :
  reachable d → _prevUrl d = Some u → inlineSVG i = Some u →
  _insertSVG (set_inputs i d) = (Normal tt, set_inputs i d)
  ∧ step (set_inputs i d) NgOnInit = set_inputs i d
  ∧ ∀ c, step (set_inputs i d) (NgOnChanges c) = set_inputs i d.
Proof.
  intros Hd Hprev Hurl.
  assert (_insertSVG (set_inputs i d) = (Normal tt, set_inputs i d)) as Hnoop.
  { rewrite insertSVG_eq. destruct (negb _); [reflexivity|]. simpl.
    rewrite Hurl, Hprev.
    destruct u as [|a u]; [by apply reachable_prevUrl in Hd|]. simpl.
    by rewrite bool_decide_true. }
  split; [exact Hnoop|]. split; [|intros c]; simpl.
  - unfold exec, ngOnInit, mbind, M_bind, this.
    destruct (negb _); [reflexivity|]. by rewrite Hnoop.
  - unfold exec, ngOnChanges, mbind, M_bind, this.
    destruct (negb _); [reflexivity|]. destruct c; [|reflexivity].
    by rewrite Hnoop.
Qed.

Lemma same_url_is_noop_witness :
  let i := Sample.with_placement false true false (Sample.url "a.svg") in
  _insertSVG (set_inputs i Sample.loading_a)
  = (Normal tt, set_inputs i Sample.loading_a)
  ∧ step (set_inputs i Sample.loading_a) NgOnInit
    = set_inputs i Sample.loading_a
  ∧ ∀ c, step (set_inputs i Sample.loading_a) (NgOnChanges c)
         = set_inputs i Sample.loading_a.
Proof.
  apply (same_url_is_noop Sample.loading_a _ "a.svg").
  - apply reachable_run. constructor.
  - reflexivity.
  - reflexivity.
Defined.

(** ** A missing URL *)

(** The guard of [_insertSVG] is open exactly on the instances whose
    construction reported no failure. *)
Lemma svg_possible_create (e : Env) (p : Platform) (s : bool) :
  svg_possible (create e p s) = true ↔ failures (log (create e p s)) = [].
Proof. destruct p, s; simpl; split; done. Qed.

(** What [_fail] leaves behind. *)
Lemma fail_reported (msg : string) (d : Directive) :
  reported msg d (_fail msg d).2.
Proof.
  pose proof (keeps_fail subscriptions untouched_subscriptions msg d) as Hsubs.
  pose proof (keeps_fail _subscription untouched_subscription msg d) as Hsub.
  destruct (fail_spec msg d) as (d' & E & Hlog & Hheap).
  rewrite E in *. simpl in Hsubs, Hsub. simpl.
  unfold reported. rewrite Hlog, Hheap.
  change (SVGFailed msg :: ?l) with ([SVGFailed msg] ++ l).
  rewrite !inserted_app, !failures_app, !requests_app.
  destruct (truthy (fallbackImgUrl (inputs d)));
    rewrite ?inserted_sink_events, ?failures_sink_events,
      ?requests_sink_events; simpl; rewrite ?app_nil_r; done.
Qed.

(** A load request with a missing URL, where both guards are open, is a call
    of [_fail]. *)
Lemma missing_url_load (d : Directive) (a : Action) :
  svg_possible d = true → platform_ok d = true →
  truthy (inlineSVG (inputs d)) = false →
  load_request a →
  step d a = (_fail "No URL passed to [inlineSVG]" d).2.
Proof.
  intros Hok Hplat Hurl [-> | ->]; simpl;
    unfold exec, ngOnInit, ngOnChanges, mbind, M_bind, this;
    rewrite Hplat; simpl; rewrite insertSVG_eq, Hok, Hurl; simpl;
    by destruct (fail_spec "No URL passed to [inlineSVG]" d) as (d' & -> & _).
Qed.

(** A load request behind a closed guard changes nothing. *)
Lemma guarded_load (d : Directive) (a : Action) :
  svg_possible d = false ∨ platform_ok d = false →
  load_request a → step d a = d.
Proof.
  intros Hguard [-> | ->]; simpl;
    unfold exec, ngOnInit, ngOnChanges, mbind, M_bind, this;
    (destruct (platform_ok d); simpl; [|reflexivity]);
    (destruct Hguard as [Hs|?]; [|done]);
    by rewrite insertSVG_eq, Hs.
Qed.

(** C7, as the code has it.  A load with an empty or missing URL fails at
    once where the guards before the check are open: [ngOnInit] and
    [ngOnChanges] go on to [_insertSVG] on the browser and on the server
    only, and [_insertSVG] goes on to the check only on the server or where
    SVG is supported.  There the failure is emitted, the cache is not asked
    and no subscription is made.  Behind a closed guard the load request
    returns and leaves the instance as it was: nothing is emitted. *)
Theorem missing_url_fails (d : Directive) :
  truthy (inlineSVG (inputs d)) = false →
  (svg_possible d = true →
   ∃ d', _insertSVG d = (Normal tt, d')
         ∧ failures (log d')
           = failures (log d) ++ ["No URL passed to [inlineSVG]"]
         ∧ requests (log d') = requests (log d)
         ∧ subscriptions d' = subscriptions d
         ∧ _subscription d' = _subscription d)
  ∧ (svg_possible d = true → platform_ok d = true →
     ∀ a, load_request a →
       failures (log (step d a))
       = failures (log d) ++ ["No URL passed to [inlineSVG]"]
       ∧ requests (log (step d a)) = requests (log d)
       ∧ subscriptions (step d a) = subscriptions d
       ∧ _subscription (step d a) = _subscription d)
  ∧ (svg_possible d = false → _insertSVG d = (Normal tt, d))
  ∧ (svg_possible d = false ∨ platform_ok d = false →
     ∀ a, load_request a → step d a = d).
Proof.
  intros Hurl. split; [|split; [|split]].
  - intros Hok. rewrite insertSVG_eq, Hok, Hurl. simpl.
    destruct (fail_reported "No URL passed to [inlineSVG]" d)
      as (_ & _ & _ & Hfail & Hreq & Hsubs & Hsub).
    destruct (_fail "No URL passed to [inlineSVG]" d) as [[[]|e] d'] eqn:E.
    + by exists d'.
    + destruct (fail_spec "No URL passed to [inlineSVG]" d) as (? & E' & _).
      congruence.
  - intros Hok Hplat a Ha. rewrite (missing_url_load d a) by done.
    by destruct (fail_reported "No URL passed to [inlineSVG]" d)
      as (_ & _ & _ & Hfail & Hreq & Hsubs & Hsub).
  - intros Hs. by rewrite insertSVG_eq, Hs.
  - intros Hguard a Ha. by apply guarded_load.
Qed.

Lemma missing_url_fails_witness :
  let d := set_inputs (with_url (Some "") default_inputs) Sample.loading_a in
  (∃ d', _insertSVG d = (Normal tt, d')
         ∧ failures (log d') = ["No URL passed to [inlineSVG]"]
         ∧ requests (log d') = [("a.svg", true)]
         ∧ subscriptions d' = [Pending]
         ∧ _subscription d' = Some 0)
  ∧ failures (log (step d (NgOnChanges true)))
    = ["No URL passed to [inlineSVG]"]
  ∧ requests (log (step d (NgOnChanges true))) = [("a.svg", true)]
  ∧ subscriptions (step d (NgOnChanges true)) = [Pending]
  ∧ _subscription (step d (NgOnChanges true)) = Some 0.
Proof.
  destruct (missing_url_fails
              (set_inputs (with_url (Some "") default_inputs) Sample.loading_a)
              eq_refl) as (Hmethod & Hhooks & _).
  split.
  - apply Hmethod. reflexivity.
  - apply Hhooks; [reflexivity|reflexivity|]. by right.
Defined.

(** C7, as stated, fails: in a browser without SVG support, and on a
    platform that is neither the browser nor the server, a load request with
    a missing URL returns at a guard and emits nothing; the only failure
    such an instance has emitted is the one of its construction. *)
Lemma missing_url_is_silent_behind_guard :
  let unsupported := create Sample.env Browser false in
  let elsewhere := create Sample.env WorkerApp true in
  truthy (inlineSVG (inputs unsupported)) = false
  ∧ truthy (inlineSVG (inputs elsewhere)) = false
  ∧ _insertSVG unsupported = (Normal tt, unsupported)
  ∧ run unsupported [NgOnInit; NgOnChanges true] = unsupported
  ∧ failures (log unsupported)
    = ["Embed SVG are not supported by this browser"]
  ∧ run elsewhere [NgOnInit; NgOnChanges true] = elsewhere
  ∧ failures (log elsewhere) = [].
Proof. repeat split. Qed.

(** ** Failure and the fallback image *)

Example fallback_image (d := set_inputs
                              (Sample.with_fallback "fallback.png"
                                 (Sample.with_placement false true false
                                    (Sample.url "a.svg")))
                              Sample.loading_a) :
  log (step d (Deliver 0 (Error "404")))
  = [GetSVG "a.svg" true; SVGFailed "404"; InsertEl (Some 0) false true]
  ∧ heap (step d (Deliver 0 (Error "404")))
    = [Elem 0 "IMG" [("src", "fallback.png")] []].
Proof. split; reflexivity. Qed.

(** ** Delivery *)

Lemma deliver_pending (d : Directive) (sub : nat) (o : Outcome) :
  subscriptions d !! sub = Some Pending →
  deliver sub o d
  = match o with
    | Next None => on_next None
    | Next (Some doc) => r ← alloc doc; on_next (Some r)
    | Error err => on_error err
    end (set_subscriptions (<[sub := Settled]> (subscriptions d)) d).
Proof.
  intros Hsub. unfold deliver, mbind at 1, M_bind at 1, this.
  rewrite Hsub. reflexivity.
Qed.

Lemma deliver_closed (d : Directive) (sub : nat) (o : Outcome) :
  subscriptions d !! sub ≠ Some Pending →
  deliver sub o d = (Normal tt, d).
Proof.
  intros Hsub. unfold deliver, mbind at 1, M_bind at 1, this.
  destruct (subscriptions d !! sub) as [[]|]; done.
Qed.

Lemma on_next_plain (svg : option Ref) (d : Directive) :
  isUrlSymbol (env d) (inlineSVG (inputs d)) = false →
  on_next svg d = _processSvg svg d.
Proof.
  intros Hsym. unfold on_next, mbind at 1 2, M_bind at 1 2, this.
  rewrite Hsym. reflexivity.
Qed.

(** An error delivered on a pending subscription is a call of [_fail]. *)
Lemma step_error (d : Directive) (sub : nat) (err : string) :
  subscriptions d !! sub = Some Pending →
  step d (Deliver sub (Error err))
  = (_fail err
       (set_subscriptions (<[sub := Settled]> (subscriptions d)) d)).2.
Proof.
  intros Hsub. simpl. unfold exec. rewrite deliver_pending by done.
  unfold on_error.
  match goal with |- context [_fail err ?x] =>
    by destruct (fail_spec err x) as (d' & -> & _) end.
Qed.

(** ** The failures that are reported *)

(** C8, as the code has it.  The failures that go through [_fail] are those
    of a load whose cache lookup delivers an error and of a load request
    with a missing URL (where the guards before the check are open).  Each of
    them emits its reason; with [fallbackImgUrl] set it makes one [IMG]
    element whose [src] is that URL and hands it to [_insertEl], the method
    a loaded document is inserted with, so the placement flags and the
    component path apply to it; without [fallbackImgUrl] the notification is
    all that happens. *)
Theorem failure_emits_and_falls_back (d : Directive) (msg : string) :
  reported msg d (_fail msg d).2
  ∧ (∀ sub, subscriptions d !! sub = Some Pending →
       let d' := step d (Deliver sub (Error msg)) in
       log d'
       = log d ++ SVGFailed msg
           :: (if truthy (fallbackImgUrl (inputs d))
               then sink_events d (Some (length (heap d))) else [])
       ∧ heap d'
         = heap d
             ++ (if truthy (fallbackImgUrl (inputs d))
                 then [Dom.createImg
                         (default "" (fallbackImgUrl (inputs d)))]
                 else [])
       ∧ inserted (log d')
         = inserted (log d) ++ (if truthy (fallbackImgUrl (inputs d))
                                then [Some (length (heap d))] else []))
  ∧ (svg_possible d = true → platform_ok d = true →
     truthy (inlineSVG (inputs d)) = false →
     ∀ a, load_request a →
       reported "No URL passed to [inlineSVG]" d (step d a))
  ∧ (∀ url, fallbackImgUrl (inputs d) = Some url → url ≠ "" →
       _fail msg d
       = _insertEl (Some (length (heap d)))
           (set_heap (heap d ++ [Dom.createImg url])
              (set_log (log d ++ [SVGFailed msg]) d))
       ∧ Dom.has_tag "IMG" (Dom.createImg url) = true
       ∧ Dom.getAttribute "src" (Dom.createImg url) = Some url)
  ∧ (truthy (fallbackImgUrl (inputs d)) = false →
     _fail msg d = (Normal tt, set_log (log d ++ [SVGFailed msg]) d)).
Proof.
  split; [apply fail_reported|]. split; [|split; [|split]].
  - intros sub Hsub d'. subst d'. rewrite step_error by exact Hsub.
    destruct (fail_reported msg
                (set_subscriptions (<[sub := Settled]> (subscriptions d)) d))
      as (Hlog & Hheap & Hins & _).
    done.
  - intros Hok Hplat Hurl a Ha. rewrite (missing_url_load d a) by done.
    apply fail_reported.
  - intros url Hurl Hne. split; [|split; reflexivity].
    unfold _fail, mbind, M_bind, this, emit, modify, alloc.
    cbn -[_insertEl]. rewrite Hurl. destruct url; [done|]. reflexivity.
  - intros Ht. unfold _fail, mbind, M_bind, this, emit, modify. simpl.
    by rewrite Ht.
Qed.

Lemma failure_emits_and_falls_back_witness :
  let d := set_inputs
             (Sample.with_fallback "fallback.png"
                (Sample.with_placement false true false (Sample.url "a.svg")))
             Sample.loading_a in
  let d' := step d (Deliver 0 (Error "404")) in
  log d' = [GetSVG "a.svg" true; SVGFailed "404"; InsertEl (Some 0) false true]
  ∧ heap d' = [Dom.createImg "fallback.png"]
  ∧ inserted (log d') = [Some 0].
Proof.
  apply (failure_emits_and_falls_back
           (set_inputs
              (Sample.with_fallback "fallback.png"
                 (Sample.with_placement false true false (Sample.url "a.svg")))
              Sample.loading_a) "404").
  reflexivity.
Defined.

(** C8, as stated, fails: a load can fail without going through [_fail].
    With a fallback image set, a symbol that is not in the document, a hook
    that returns nothing and a browser without SVG support each end the load
    without a failure notification for it and without a fallback image. *)
Lemma unreported_failure_gets_no_fallback :
  let fallback := Sample.with_fallback "fallback.png" in
  let no_symbol :=
    run Sample.browser
      [SetInputs (fallback (Sample.url "sprite.svg#nope")); NgOnInit;
       Deliver 0 (Next (Some Sample.sprite_doc))] in
  let no_element :=
    run Sample.browser
      [SetInputs (fallback (Sample.with_hook (λ _, None) (Sample.url "a.svg")));
       NgOnInit; Deliver 0 (Next (Some Sample.plain_doc))] in
  let unsupported :=
    run (create Sample.env Browser false)
      [SetInputs (fallback (Sample.url "a.svg")); NgOnInit] in
  log no_symbol
  = [GetSVG "sprite.svg#nope" true; Uncaught "Symbol not found"]
  ∧ heap no_symbol = [Sample.sprite_doc]
  ∧ log no_element
    = [GetSVG "a.svg" true; InsertEl None true false; Uncaught "TypeError"]
  ∧ heap no_element = [Sample.plain_doc]
  ∧ log unsupported
    = [SVGFailed "Embed SVG are not supported by this browser"]
  ∧ heap unsupported = [].
Proof. repeat split. Qed.

(** ** A missing document *)

(** C9. When the cache delivers no document, [_processSvg] returns at once
    and the load attempt leaves no trace: nothing is handed to the sink and
    neither [onSVGInserted] nor [onSVGFailed] emits. *)
Theorem missing_document_is_silent (d : Directive) :
  _processSvg None d = (Normal tt, d)
  ∧ ∀ sub,
      isUrlSymbol (env d) (inlineSVG (inputs d)) = false →
      log (step d (Deliver sub (Next None))) = log d
      ∧ heap (step d (Deliver sub (Next None))) = heap d.
Proof.
  split; [reflexivity|]. intros sub Hsym.
  simpl. unfold exec.
  destruct (decide (subscriptions d !! sub = Some Pending)) as [Hsub|Hsub].
  - rewrite deliver_pending, on_next_plain by done. done.
  - rewrite deliver_closed by done. done.
Qed.

Lemma missing_document_is_silent_witness :
  log (step Sample.loading_a (Deliver 0 (Next None)))
  = log Sample.loading_a
  ∧ heap (step Sample.loading_a (Deliver 0 (Next None)))
    = heap Sample.loading_a.
Proof.
  apply (proj2 (missing_document_is_silent Sample.loading_a) 0). reflexivity.
Defined.

(** ** Subscriptions *)




Lemma ngOnDestroy_eq (d : Directive) :
  ngOnDestroy d
  = (Normal tt,
     match _subscription d with
     | Some i =>
         match subscriptions d !! i with
         | Some Pending =>
             set_subscriptions (<[i := Unsubscribed]> (subscriptions d)) d
         | _ => d
         end
     | None => d
     end).
Proof.
  unfold ngOnDestroy, unsubscribe, mbind, M_bind, this, modify.
  destruct (_subscription d) as [i|]; [|reflexivity].
  destruct (subscriptions d !! i) as [[]|]; reflexivity.
Qed.






(** ** Loading again after a failure *)





(** ** Running a method step by step *)

Lemma bind_normal {A B} (m : M A) (k : A → M B) (d d' : Directive) (a : A) :
  m d = (Normal a, d') → (m ≫= k) d = k a d'.
Proof. intros E. unfold mbind, M_bind. by rewrite E. Qed.

Lemma bind_thrown {A B} (m : M A) (k : A → M B) (d d' : Directive)
    (e : string) :
  m d = (Thrown e, d') → (m ≫= k) d = (Thrown e, d').
Proof. intros E. unfold mbind, M_bind. by rewrite E. Qed.

Lemma deref_eq (r : Ref) (t : Node) (d : Directive) :
  heap d !! r = Some t → deref r d = (Normal t, d).
Proof. intros Ht. unfold deref, mbind, M_bind, this. by rewrite Ht. Qed.

(** One statement of a method that cannot throw. *)
Ltac next := erewrite bind_normal by reflexivity.

(** ** Script evaluation *)

Lemma run_scripts_return (l : list string) (d : Directive) :
  all_return d l = true →
  run_scripts l d = (Normal tt, set_log (log d ++ map EvalScript l) d).
Proof.
  revert d. induction l as [|text l IH]; intros d Hall; simpl.
  - rewrite app_nil_r, set_log_same. reflexivity.
  - simpl in Hall. apply andb_true_iff in Hall as [Htext Hall].
    apply bool_decide_eq_true in Htext.
    unfold mbind, M_bind, this, emit, modify. simpl. rewrite Htext.
    rewrite IH by exact Hall. simpl. by rewrite <- app_assoc.
Qed.

(** The first script that throws ends the loop; the scripts after it are
    not run. *)
Lemma run_scripts_throw (ok rest : list string) (bad e : string)
    (d : Directive) :
  all_return d ok = true → runScript (env d) bad = Some e →
  run_scripts (ok ++ bad :: rest) d
  = (Thrown e, set_log (log d ++ map EvalScript (ok ++ [bad])) d).
Proof.
  revert d. induction ok as [|text ok IH]; intros d Hall Hbad; simpl.
  - unfold mbind, M_bind, this, emit, modify. simpl. by rewrite Hbad.
  - simpl in Hall. apply andb_true_iff in Hall as [Htext Hall].
    apply bool_decide_eq_true in Htext.
    unfold mbind, M_bind, this, emit, modify. simpl. rewrite Htext.
    rewrite IH by done. simpl. by rewrite <- app_assoc.
Qed.

(** A list of scripts either all return or splits at the first that throws. *)
Lemma all_return_false (d : Directive) (l : list string) :
  all_return d l = false →
  ∃ ok bad rest e, l = ok ++ bad :: rest ∧ all_return d ok = true
                   ∧ runScript (env d) bad = Some e.
Proof.
  induction l as [|text l IH]; simpl; [done|]. intros Hall.
  destruct (runScript (env d) text) as [e|] eqn:Htext.
  - exists [], text, l, e. done.
  - rewrite bool_decide_true in Hall by done. simpl in Hall.
    destruct (IH Hall) as (ok & bad & rest & e & -> & Hok & Hbad).
    exists (text :: ok), bad, rest, e. simpl.
    rewrite Htext, bool_decide_true by done. done.
Qed.

(** [_evalScripts] in the browser, for an element that exists. *)
Lemma evalScripts_eq (d : Directive) (r : Ref) (t : Node) :
  isPlatformBrowser (platformId d) = true →
  heap d !! r = Some t →
  _evalScripts (Some r) d
  = let d1 := set_heap (<[r := Scripts.stripped t]> (heap d)) d in
    if should_run (Scripts.scriptsToEval t) d then
      match run_scripts (Scripts.scriptsToEval t) d1 with
      | (Normal _, d2) =>
          (Normal tt,
           set_ranScripts
             (mark_ran (property_key (inlineSVG (inputs d))) (_ranScripts d2))
             d2)
      | (Thrown e, d2) => (Thrown e, d2)
      end
    else (Normal tt, d1).
Proof.
  intros Hb Ht. unfold _evalScripts. next. rewrite Hb. simpl.
  erewrite bind_normal by (by apply deref_eq). next.
  destruct (should_run (Scripts.scriptsToEval t) d); [|reflexivity].
  destruct (run_scripts (Scripts.scriptsToEval t)
              (set_heap (<[r:=Scripts.stripped t]> (heap d)) d))
    as [[[]|e] d2] eqn:E.
  - erewrite bind_normal by exact E.
    pose proof (keeps_run_scripts inputs
                  ltac:(repeat split) (Scripts.scriptsToEval t)
                  (set_heap (<[r:=Scripts.stripped t]> (heap d)) d)) as Hin.
    rewrite E in Hin. simpl in Hin. unfold modify. by rewrite Hin.
  - by erewrite bind_thrown by exact E.
Qed.

Lemma evaluated_EvalScript (l : list string) :
  evaluated (map EvalScript l) = l.
Proof. induction l as [|s l IH]; [done|]. simpl. f_equal. exact IH. Qed.

Lemma should_run_always (d : Directive) (l : list string) :
  evalScripts (inputs d) = always → l ≠ [] → should_run l d = true.
Proof. intros Hp Hl. unfold should_run. rewrite Hp. by destruct l. Qed.

(** ** The script-run record *)

(** Once written, the record reads as true under the key. *)
Lemma ran_before_mark_ran (key : string) (ranScripts : gmap string bool) :
  ran_before (mark_ran key ranScripts) key = true.
Proof.
  unfold ran_before, mark_ran.
  destruct (String.eqb key "__proto__"); [done|].
  by rewrite lookup_insert_eq.
Qed.

(** Writing the record takes no entry away and changes none that is true. *)
Lemma mark_ran_keeps (key k : string) (ranScripts : gmap string bool) :
  ranScripts !! k = Some true → mark_ran key ranScripts !! k = Some true.
Proof.
  intros Hk. unfold mark_ran.
  destruct (String.eqb key "__proto__"); [done|].
  destruct (decide (key = k)) as [->|Hne].
  - by rewrite lookup_insert_eq.
  - by rewrite lookup_insert_ne.
Qed.

(** What reads as true keeps doing so when the record is written. *)
Lemma ran_before_mono (key k : string) (ranScripts : gmap string bool) :
  ran_before ranScripts k = true →
  ran_before (mark_ran key ranScripts) k = true.
Proof.
  unfold ran_before, mark_ran.
  destruct (String.eqb k "__proto__"); [done|].
  destruct (String.eqb key "__proto__"); [done|].
  destruct (decide (key = k)) as [->|Hne].
  - by rewrite lookup_insert_eq.
  - by rewrite lookup_insert_ne.
Qed.


(** C10. The assignment [this._ranScripts[url] = true] is made when the
    scripts were to be run and the loop over them came to its end without a
    script throwing, and not otherwise; after it the record reads as true for
    the URL, so that under ['once'] no later evaluation runs a script.  A
    script that throws leaves the record as it was, so that the next
    evaluation decides as this one did: the scripts are run again, also
    under ['once'].  Under ['always'] the assignment is made whenever there
    was a script to run and all returned. *)
Theorem record_written_after_loop (d : Directive) (r : Ref) (t : Node) :
  heap d !! r = Some t →
  let l := script_texts t in
  let key := default "undefined" (inlineSVG (inputs d)) in
  let runs := isPlatformBrowser (platformId d) && should_run l d in
  ∃ c d',
    _evalScripts (Some r) d = (c, d')
    ∧ _ranScripts d'
      = (if runs && all_return d l
         then mark_ran key (_ranScripts d) else _ranScripts d)
    ∧ (runs = true → all_return d l = true →
       c = Normal tt ∧ evaluated (log d') = evaluated (log d) ++ l
       ∧ ran_before (_ranScripts d') key = true
       ∧ (evalScripts (inputs d) = once → ∀ l', should_run l' d' = false))
    ∧ (runs = true → all_return d l = false →
       (∃ e, c = Thrown e) ∧ _ranScripts d' = _ranScripts d
       ∧ (∀ l', should_run l' d' = should_run l' d)
       ∧ should_run l d' = true)
    ∧ (isPlatformBrowser (platformId d) = true →
       evalScripts (inputs d) = always → l ≠ [] → all_return d l = true →
       _ranScripts d' = mark_ran key (_ranScripts d)
       ∧ ran_before (_ranScripts d') key = true).
Proof.
  intros Ht l key runs. subst runs l.
  rewrite <- scriptsToEval_types. set (l := Scripts.scriptsToEval t).
  change key with (property_key (inlineSVG (inputs d))) in *.
  destruct (isPlatformBrowser (platformId d)) eqn:Hb; simpl.
  2:{ exists (Normal tt), d. split; [|done].
      unfold _evalScripts. next. by rewrite Hb. }
  rewrite (evalScripts_eq d r t Hb Ht). cbv zeta.
  fold l. destruct (should_run l d) eqn:Hrun.
  - destruct (all_return d l) eqn:Hall.
    + rewrite run_scripts_return by exact Hall.
      eexists _, _. split; [reflexivity|]. simpl.
      split; [reflexivity|]. split; [|split; [done|]].
      * intros _ _. split; [reflexivity|].
        split; [by rewrite evaluated_app, evaluated_EvalScript|].
        split; [apply ran_before_mark_ran|].
        intros Hp l'. unfold should_run. simpl. rewrite Hp.
        fold key. rewrite ran_before_mark_ran. apply andb_false_r.
      * intros _ _ _ _. split; [reflexivity|]. apply ran_before_mark_ran.
    + destruct (all_return_false d l Hall)
        as (ok & bad & rest & e & El & Hok & Hbad).
      rewrite El, (run_scripts_throw ok rest bad e) by done.
      eexists _, _. split; [reflexivity|]. simpl.
      split; [reflexivity|]. split; [done|]. split; [|done].
      intros _ _. split; [by exists e|]. split; [reflexivity|].
      split; [reflexivity|]. rewrite <- El. exact Hrun.
  - eexists _, _. split; [reflexivity|]. simpl.
    split; [reflexivity|]. split; [done|]. split; [done|].
    intros _ Hp Hl. by rewrite should_run_always in Hrun.
Qed.

Lemma record_written_after_loop_witness :
  let d := Sample.holding once Sample.throwing_doc in
  let l := script_texts Sample.throwing_doc in
  let key := default "undefined" (inlineSVG (inputs d)) in
  let runs := isPlatformBrowser (platformId d) && should_run l d in
  ∃ c d',
    _evalScripts (Some 0) d = (c, d')
    ∧ _ranScripts d'
      = (if runs && all_return d l
         then mark_ran key (_ranScripts d) else _ranScripts d)
    ∧ (runs = true → all_return d l = true →
       c = Normal tt ∧ evaluated (log d') = evaluated (log d) ++ l
       ∧ ran_before (_ranScripts d') key = true
       ∧ (evalScripts (inputs d) = once → ∀ l', should_run l' d' = false))
    ∧ (runs = true → all_return d l = false →
       (∃ e, c = Thrown e) ∧ _ranScripts d' = _ranScripts d
       ∧ (∀ l', should_run l' d' = should_run l' d)
       ∧ should_run l d' = true)
    ∧ (isPlatformBrowser (platformId d) = true →
       evalScripts (inputs d) = always → l ≠ [] → all_return d l = true →
       _ranScripts d' = mark_ran key (_ranScripts d)
       ∧ ran_before (_ranScripts d') key = true).
Proof.
  apply (record_written_after_loop
           (Sample.holding once Sample.throwing_doc) 0 Sample.throwing_doc).
  reflexivity.
Defined.

Example throwing_script_is_run_again :
  let d := run (Sample.asked_twice once)
             [Deliver 0 (Next (Some Sample.throwing_doc));
              Deliver 2 (Next (Some Sample.throwing_doc))] in
  log d
  = [GetSVG "a.svg" true; GetSVG "b.svg" true; GetSVG "a.svg" true;
     InsertEl (Some 0) true false; EvalScript "init()"; EvalScript "throw 1";
     Uncaught "Error";
     InsertEl (Some 1) true false; EvalScript "init()"; EvalScript "throw 1";
     Uncaught "Error"]
  ∧ _ranScripts d = ∅.
Proof. split; reflexivity. Qed.

(** ** Processing a document, step by step *)

Lemma set_heap_same (d : Directive) : set_heap (heap d) d = d.
Proof. by destruct d. Qed.

Lemma set_svgComp_same (d : Directive) : set_svgComp (_svgComp d) d = d.
Proof. by destruct d. Qed.

Lemma set_ranScripts_same (d : Directive) :
  set_ranScripts (_ranScripts d) d = d.
Proof. by destruct d. Qed.

Lemma strip_attributes_eq (d : Directive) (r : Ref) (t : Node) :
  heap d !! r = Some t →
  strip_attributes r d
  = (Normal tt, set_heap (<[r := attributes_removed d t]> (heap d)) d).
Proof.
  intros Ht. unfold strip_attributes, attributes_removed. next.
  destruct (removeSVGAttributes (inputs d)) as [names|];
    [destruct (isPlatformBrowser (platformId d))|].
  - erewrite bind_normal by (by apply deref_eq). reflexivity.
  - by rewrite list_insert_id, set_heap_same.
  - by rewrite list_insert_id, set_heap_same.
Qed.

Lemma apply_hook_eq (d : Directive) (r : Ref) (t : Node) :
  heap d !! r = Some t →
  apply_hook r d
  = match onSVGLoaded (inputs d) with
    | Some hook =>
        match hook t with
        | Some w =>
            (Normal (Some (length (heap d))), set_heap (heap d ++ [w]) d)
        | None => (Normal None, d)
        end
    | None => (Normal (Some r), d)
    end.
Proof.
  intros Ht. unfold apply_hook. next.
  destruct (onSVGLoaded (inputs d)) as [hook|]; [|reflexivity].
  erewrite bind_normal by (by apply deref_eq).
  destruct (hook t); reflexivity.
Qed.

Lemma insertEl_eq (el : option Ref) (d : Directive) :
  _insertEl el d
  = (Normal tt,
     set_log (log d ++ sink_events d el)
       (set_svgComp (injectComponent (inputs d) || _svgComp d) d)).
Proof.
  unfold _insertEl, sink_events. next.
  destruct d as [i e p s u rs sub c h ss l]; simpl.
  destruct (injectComponent i); [destruct c|]; simpl; try next;
    unfold emit, modify; simpl; rewrite <- ?app_assoc; reflexivity.
Qed.

(** [_evalScripts] when no script throws. *)
Lemma evalScripts_return (d : Directive) (r : Ref) (w : Node) :
  heap d !! r = Some w →
  all_return d (to_run d w) = true →
  _evalScripts (Some r) d
  = (Normal tt,
     set_ranScripts
       (if isPlatformBrowser (platformId d)
           && should_run (Scripts.scriptsToEval w) d
        then mark_ran (property_key (inlineSVG (inputs d))) (_ranScripts d)
        else _ranScripts d)
       (set_log (log d ++ map EvalScript (to_run d w))
          (set_heap (if isPlatformBrowser (platformId d)
                     then <[r := Scripts.stripped w]> (heap d) else heap d)
             d))).
Proof.
  intros Hw Hall. unfold to_run in *.
  destruct (isPlatformBrowser (platformId d)) eqn:Hb; simpl in *.
  - rewrite (evalScripts_eq d r w Hb Hw). cbv zeta.
    destruct (should_run (Scripts.scriptsToEval w) d).
    + rewrite run_scripts_return by exact Hall. reflexivity.
    + simpl. rewrite app_nil_r. by destruct d.
  - unfold _evalScripts. next. rewrite Hb. simpl.
    rewrite app_nil_r. by destruct d.
Qed.

Lemma force_styles_eq (d : Directive) (r : Ref) (t : Node) :
  heap d !! r = Some t →
  force_styles (Some r) d
  = (Normal tt,
     set_heap (if forceEvalStyles (inputs d)
               then <[r := forceStyles t]> (heap d) else heap d) d).
Proof.
  intros Ht. unfold force_styles. next.
  destruct (forceEvalStyles (inputs d)).
  - erewrite bind_normal by (by apply deref_eq). reflexivity.
  - by rewrite set_heap_same.
Qed.

(** From the hand-over to the sink to the success notification, for an
    element with tree [w] whose scripts all return. *)
Lemma insert_and_finish (d : Directive) (r : Ref) (w : Node) :
  heap d !! r = Some w →
  all_return d (to_run d w) = true →
  ∃ d',
    (_insertEl (Some r);; _evalScripts (Some r);; force_styles (Some r);;
     emit (SVGInserted (Some r))) d = (Normal tt, d')
    ∧ log d'
      = log d ++ sink_events d (Some r) ++ map EvalScript (to_run d w)
          ++ [SVGInserted (Some r)]
    ∧ heap d' = <[r := finished d w]> (heap d)
    ∧ _ranScripts d'
      = (if isPlatformBrowser (platformId d)
            && should_run (Scripts.scriptsToEval w) d
         then mark_ran (property_key (inlineSVG (inputs d))) (_ranScripts d)
         else _ranScripts d)
    ∧ config d' = config d
    ∧ subscriptions d' = subscriptions d.
Proof.
  intros Hw Hall.
  erewrite bind_normal by apply insertEl_eq.
  erewrite bind_normal by (by apply evalScripts_return).
  assert (r < length (heap d)) as Hr by (by eapply lookup_lt_Some).
  erewrite bind_normal.
  2:{ apply (force_styles_eq _ r
               (if isPlatformBrowser (platformId d)
                then Scripts.stripped w else w)).
      simpl. destruct (isPlatformBrowser (platformId d)); [|exact Hw].
      by rewrite list_lookup_insert_eq. }
  eexists. split; [reflexivity|]. simpl.
  split; [by rewrite <- !app_assoc|].
  split; [|done].
  unfold finished.
  destruct (forceEvalStyles (inputs d)),
    (isPlatformBrowser (platformId d)); simpl;
    rewrite ?list_insert_insert_eq; try done.
  by rewrite list_insert_id.
Qed.

Lemma bind_eq {A B} (m : M A) (k : A → M B) (d : Directive) :
  (m ≫= k) d
  = match m d with
    | (Normal a, d') => k a d'
    | (Thrown e, d') => (Thrown e, d')
    end.
Proof. reflexivity. Qed.

(** [_processSvg] for a document whose hook, if any, returns an element and
    whose scripts all return. *)
Lemma processSvg_ok (d : Directive) (r : Ref) (t w : Node) :
  heap d !! r = Some t →
  transformed d t = Some w →
  all_return d (to_run d w) = true →
  ∃ d',
    _processSvg (Some r) d = (Normal tt, d')
    ∧ log d'
      = log d ++ sink_events d (Some (working_ref d r))
          ++ map EvalScript (to_run d w)
          ++ [SVGInserted (Some (working_ref d r))]
    ∧ heap d' !! working_ref d r = Some (finished d w)
    ∧ (∀ q u, q ≠ r → heap d !! q = Some u → heap d' !! q = Some u)
    ∧ _ranScripts d'
      = (if isPlatformBrowser (platformId d)
            && should_run (Scripts.scriptsToEval w) d
         then mark_ran (property_key (inlineSVG (inputs d))) (_ranScripts d)
         else _ranScripts d)
    ∧ config d' = config d
    ∧ subscriptions d' = subscriptions d.
Proof.
  intros Ht Hw Hall. unfold _processSvg.
  assert (r < length (heap d)) as Hr by (by eapply lookup_lt_Some).
  erewrite bind_normal by (by apply strip_attributes_eq).
  set (t1 := attributes_removed d t) in *.
  set (d1 := set_heap (<[r := t1]> (heap d)) d).
  assert (heap d1 !! r = Some t1) as Ht1.
  { subst d1. simpl. by rewrite list_lookup_insert_eq. }
  rewrite bind_eq, (apply_hook_eq d1 r t1 Ht1).
  unfold transformed, working_ref in *. fold t1 in Hw.
  replace (onSVGLoaded (inputs d1)) with (onSVGLoaded (inputs d))
    by reflexivity.
  destruct (onSVGLoaded (inputs d)) as [hook|].
  - rewrite Hw.
    set (d2 := set_heap (heap d1 ++ [w]) d1).
    assert (length (heap d1) = length (heap d)) as Hlen.
    { subst d1. simpl. by rewrite length_insert. }
    destruct (insert_and_finish d2 (length (heap d1)) w)
      as (d' & E & Hlog & Hheap & Hran & Hconf & Hsubs).
    { subst d2. simpl. by rewrite lookup_app_r, Nat.sub_diag. }
    { exact Hall. }
    exists d'. split; [exact E|]. rewrite Hlog, Hheap, Hran, Hconf, Hsubs.
    rewrite <- Hlen. split; [reflexivity|]. split.
    { subst d2. simpl. rewrite list_lookup_insert_eq; [done|].
      rewrite length_app. simpl. lia. }
    split; [|done].
    intros q u Hq Hu. subst d2 d1. simpl.
    assert (q < length (heap d)) as Hqlen by (by eapply lookup_lt_Some).
    rewrite list_lookup_insert_ne by (rewrite length_insert; lia).
    rewrite lookup_app_l by (rewrite length_insert; lia).
    by rewrite list_lookup_insert_ne.
  - injection Hw as <-.
    destruct (insert_and_finish d1 r t1 Ht1 Hall)
      as (d' & E & Hlog & Hheap & Hran & Hconf & Hsubs).
    exists d'. split; [exact E|]. rewrite Hlog, Hheap, Hran, Hconf, Hsubs.
    split; [reflexivity|]. split.
    { subst d1. simpl. rewrite list_lookup_insert_eq; [done|].
      by rewrite length_insert. }
    split; [|done].
    intros q u Hq Hu. subst d1. simpl.
    by rewrite !list_lookup_insert_ne.
Qed.

(** A document arrives on a pending subscription: it becomes a new element,
    the symbol is made from it when the URL is a symbol URL, and the result
    is processed. *)
Lemma deliver_document (d : Directive) (sub : nat) (t t0 : Node) :
  subscriptions d !! sub = Some Pending →
  resolved d t = Normal t0 →
  ∃ h r,
    deliver sub (Next (Some t)) d
    = _processSvg (Some r)
        (set_heap h
           (set_subscriptions (<[sub := Settled]> (subscriptions d)) d))
    ∧ h !! r = Some t0
    ∧ length h = S r
    ∧ r = length (heap d)
          + (if isUrlSymbol (env d) (inlineSVG (inputs d)) then 1 else 0)
    ∧ ∀ q u, heap d !! q = Some u → h !! q = Some u.
Proof.
  intros Hsub Hres. rewrite deliver_pending by exact Hsub.
  erewrite bind_normal by reflexivity.
  unfold resolved in Hres. unfold on_next. next. simpl.
  destruct (isUrlSymbol (env d) (inlineSVG (inputs d))).
  - destruct (inlineSVG (inputs d)) as [url|]; [|discriminate].
    rewrite bind_eq.
    erewrite bind_normal.
    2:{ erewrite bind_normal; [reflexivity|]. apply deref_eq. simpl.
        by rewrite lookup_app_r, Nat.sub_diag. }
    rewrite Hres. erewrite bind_normal by reflexivity.
    unfold mret, M_ret. cbn [heap set_heap].
    exists ((heap d ++ [t]) ++ [t0]), (length (heap d ++ [t])).
    split; [reflexivity|]. split.
    { by rewrite lookup_app_r, Nat.sub_diag. }
    split; [rewrite !length_app; simpl; lia|].
    split; [rewrite length_app; simpl; lia|].
    intros q u Hq. by do 2 apply lookup_app_l_Some.
  - injection Hres as <-. erewrite bind_normal by reflexivity.
    exists (heap d ++ [t]), (length (heap d)).
    split; [reflexivity|]. split.
    { by rewrite lookup_app_r, Nat.sub_diag. }
    split; [rewrite length_app; simpl; lia|]. split; [lia|].
    intros q u Hq. by apply lookup_app_l_Some.
Qed.

(** A document arrives and is processed with success. *)
Lemma step_deliver_ok (d : Directive) (sub : nat) (t t0 w : Node) :
  subscriptions d !! sub = Some Pending →
  resolved d t = Normal t0 →
  transformed d t0 = Some w →
  all_return d (to_run d w) = true →
  let el := arriving_ref d in
  let d' := step d (Deliver sub (Next (Some t))) in
  log d'
  = log d ++ sink_events d (Some el) ++ map EvalScript (to_run d w)
      ++ [SVGInserted (Some el)]
  ∧ heap d' !! el = Some (finished d w)
  ∧ (∀ q u, heap d !! q = Some u → heap d' !! q = Some u)
  ∧ _ranScripts d'
    = (if isPlatformBrowser (platformId d)
          && should_run (Scripts.scriptsToEval w) d
       then mark_ran (property_key (inlineSVG (inputs d))) (_ranScripts d)
       else _ranScripts d)
  ∧ config d' = config d
  ∧ subscriptions d' = <[sub := Settled]> (subscriptions d).
Proof.
  intros Hsub Hres Hw Hall el d'. subst d'. simpl. unfold exec.
  destruct (deliver_document d sub t t0 Hsub Hres)
    as (h & r & -> & Hr & Hlen & Hrdef & Hold).
  set (d0 := set_heap h
               (set_subscriptions (<[sub := Settled]> (subscriptions d)) d)).
  destruct (processSvg_ok d0 r t0 w)
    as (d' & E & Hlog & Hheap & Hkeep & Hran & Hconf & Hsubs);
    [exact Hr|exact Hw|exact Hall|].
  rewrite E.
  assert (working_ref d0 r = el) as Hel.
  { unfold working_ref, el, arriving_ref. subst d0. simpl.
    destruct (onSVGLoaded (inputs d)); lia. }
  rewrite Hel in *.
  split; [exact Hlog|]. split; [exact Hheap|].
  split; [|split; [exact Hran|split; [exact Hconf|exact Hsubs]]].
  intros q u Hq. apply Hkeep; [|by apply Hold].
  apply lookup_lt_Some in Hq. lia.
Qed.

(** ** The order of a successful load *)

(** C5, as the code has it.  When a document arrives and is processed with
    success, this is what happens, in this order: the element is handed to
    the insertion sink, then its scripts are evaluated, then [onSVGInserted]
    emits it.  Script evaluation is over before the success notification,
    and starts after the hand-over to the sink; the scripts are stripped
    from the element the sink was given. *)
Theorem processing_order (d : Directive) (sub : nat) (t t0 w : Node) :
  subscriptions d !! sub = Some Pending →
  resolved d t = Normal t0 →
  transformed d t0 = Some w →
  all_return d (to_run d w) = true →
  let el := arriving_ref d in
  let d' := step d (Deliver sub (Next (Some t))) in
  log d'
  = log d ++ sink_events d (Some el) ++ map EvalScript (to_run d w)
      ++ [SVGInserted (Some el)]
  ∧ heap d' !! el = Some (finished d w).
Proof.
  intros Hsub Hres Hw Hall el d'.
  destruct (step_deliver_ok d sub t t0 w Hsub Hres Hw Hall)
    as (Hlog & Hheap & _).
  split; [exact Hlog|exact Hheap].
Qed.

Lemma processing_order_witness :
  let d := Sample.loading_a in
  let d' := step d (Deliver 0 (Next (Some Sample.script_doc))) in
  log d'
  = log d ++ sink_events d (Some 0)
      ++ map EvalScript (to_run d Sample.script_doc)
      ++ [SVGInserted (Some 0)]
  ∧ heap d' !! 0 = Some (finished d Sample.script_doc).
Proof.
  apply (processing_order Sample.loading_a 0 Sample.script_doc
           Sample.script_doc Sample.script_doc); reflexivity.
Defined.

Example symbol_is_inserted :
  let d := run Sample.browser
             [SetInputs (Sample.url "sprite.svg#logo"); NgOnInit;
              Deliver 0 (Next (Some Sample.sprite_doc))] in
  log d
  = [GetSVG "sprite.svg#logo" true; InsertEl (Some 1) true false;
     SVGInserted (Some 1)]
  ∧ heap d !! 1
    = Some (Elem 0 "svg" []
              [Elem 2 "symbol" [("id", "logo"); ("viewBox", "0 0 8 8")]
                 [Elem 3 "path" [("d", "M0 0")] []]]).
Proof. split; reflexivity. Qed.

(** C5, as stated, fails: the document is handed to the insertion sink
    before any of its scripts is evaluated. *)
Lemma inserted_before_scripts_run :
  log (step Sample.loading_a (Deliver 0 (Next (Some Sample.script_doc))))
  = [GetSVG "a.svg" true; InsertEl (Some 0) true false;
     EvalScript "init()"; EvalScript "start()"; SVGInserted (Some 0)].
Proof. reflexivity. Qed.

(** ** The post-load hook *)

(** [_processSvg] when the hook returns nothing: the missing value is handed
    to the sink; in the browser the script scan then throws, elsewhere the
    style pass throws when it is on, and otherwise [onSVGInserted] emits the
    missing value. *)
Lemma processSvg_hook_nothing (d : Directive) (r : Ref) (t : Node) :
  heap d !! r = Some t →
  transformed d t = None →
  let throws := isPlatformBrowser (platformId d)
                || forceEvalStyles (inputs d) in
  ∃ d',
    _processSvg (Some r) d
    = (if throws then Thrown "TypeError" else Normal tt, d')
    ∧ log d'
      = log d ++ sink_events d None
          ++ (if throws then [] else [SVGInserted None]).
Proof.
  intros Ht Hw throws. subst throws. unfold _processSvg.
  assert (r < length (heap d)) as Hr by (by eapply lookup_lt_Some).
  erewrite bind_normal by (by apply strip_attributes_eq).
  set (t1 := attributes_removed d t) in *.
  set (d1 := set_heap (<[r := t1]> (heap d)) d).
  assert (heap d1 !! r = Some t1) as Ht1.
  { subst d1. simpl. by rewrite list_lookup_insert_eq. }
  rewrite bind_eq, (apply_hook_eq d1 r t1 Ht1).
  unfold transformed in Hw. fold t1 in Hw.
  replace (onSVGLoaded (inputs d1)) with (onSVGLoaded (inputs d))
    by reflexivity.
  destruct (onSVGLoaded (inputs d)) as [hook|]; [|discriminate].
  rewrite Hw. erewrite bind_normal by apply insertEl_eq.
  unfold _evalScripts, force_styles. rewrite bind_eq.
  erewrite bind_normal by reflexivity. simpl.
  destruct (isPlatformBrowser (platformId d)); simpl.
  { eexists. split; [reflexivity|]. simpl. by rewrite app_nil_r. }
  rewrite bind_eq. erewrite bind_normal by reflexivity. simpl.
  destruct (forceEvalStyles (inputs d)); simpl.
  { eexists. split; [reflexivity|]. simpl. by rewrite app_nil_r. }
  eexists. split; [reflexivity|]. simpl. by rewrite <- app_assoc.
Qed.

(** C6, as the code has it.  What the hook returns is the element from then
    on: it is the element handed to the sink, the one whose scripts are
    stripped and evaluated and whose styles are rewritten, and the one
    [onSVGInserted] emits.  The return value is not checked: a missing value
    is handed to the sink like any other and no failure is emitted for it. *)
Theorem hook_result_is_the_element
    (d : Directive) (r : Ref) (t : Node) (hook : Node → option Node) :
  heap d !! r = Some t →
  onSVGLoaded (inputs d) = Some hook →
  match hook (attributes_removed d t) with
  | Some w =>
      all_return d (to_run d w) = true →
      ∃ d',
        _processSvg (Some r) d = (Normal tt, d')
        ∧ log d'
          = log d ++ sink_events d (Some (length (heap d)))
              ++ map EvalScript (to_run d w)
              ++ [SVGInserted (Some (length (heap d)))]
        ∧ heap d' !! length (heap d) = Some (finished d w)
  | None =>
      ∃ c d',
        _processSvg (Some r) d = (c, d')
        ∧ inserted (log d') = inserted (log d) ++ [None]
        ∧ failures (log d') = failures (log d)
  end.
Proof.
  intros Ht Hhook.
  destruct (hook (attributes_removed d t)) as [w|] eqn:Hw.
  - intros Hall.
    destruct (processSvg_ok d r t w) as (d' & E & Hlog & Hheap & _);
      [exact Ht|by unfold transformed; rewrite Hhook|exact Hall|].
    unfold working_ref in *. rewrite Hhook in *.
    exists d'. done.
  - destruct (processSvg_hook_nothing d r t) as (d' & E & Hlog);
      [exact Ht|by unfold transformed; rewrite Hhook|].
    eexists _, d'. split; [exact E|]. rewrite Hlog.
    rewrite !inserted_app, !failures_app.
    rewrite inserted_sink_events, failures_sink_events.
    destruct (_ || _); simpl; by rewrite ?app_nil_r.
Qed.

Lemma hook_result_is_the_element_witness :
  let d := set_heap [Sample.script_doc] Sample.wrapping in
  ∃ d',
    _processSvg (Some 0) d = (Normal tt, d')
    ∧ log d'
      = log d ++ sink_events d (Some 1)
          ++ map EvalScript
               (to_run d (Elem 9 "svg" []
                            [Elem 8 "g" [("class", "wrapped")]
                               [Sample.script_doc]]))
          ++ [SVGInserted (Some 1)]
    ∧ heap d' !! 1
      = Some (finished d (Elem 9 "svg" []
                            [Elem 8 "g" [("class", "wrapped")]
                               [Sample.script_doc]])).
Proof.
  apply (hook_result_is_the_element
           (set_heap [Sample.script_doc] Sample.wrapping) 0
           Sample.script_doc Sample.wrap); reflexivity.
Defined.

(** C6, as stated, fails: with a hook that returns nothing the load does not
    fail with a notification.  In the browser the missing value is handed to
    the sink and the script scan throws; on the server it is handed to the
    sink and emitted as the inserted element. *)
Lemma missing_hook_result_is_no_failure :
  log (step (Sample.hook_returns_nothing Browser)
         (Deliver 0 (Next (Some Sample.plain_doc))))
  = [GetSVG "a.svg" true; InsertEl None true false; Uncaught "TypeError"]
  ∧ log (step (Sample.hook_returns_nothing Server)
           (Deliver 0 (Next (Some Sample.plain_doc))))
    = [GetSVG "a.svg" true; InsertEl None true false; SVGInserted None].
Proof. split; reflexivity. Qed.

(** ** Styles and scripts of the finished element *)










(** ** The script policy over two loads *)





(** Under ['once'] the scripts of a document are not run, at the first
    arrival either, when the URL is the name of a property that the record
    inherits as an object; under ['always'] they are. *)
Example once_runs_nothing_under_inherited_name :
  let loaded p :=
    run Sample.browser
      [SetInputs (Sample.with_policy p (Sample.url "constructor")); NgOnInit;
       Deliver 0 (Next (Some Sample.script_doc))] in
  log (loaded once)
  = [GetSVG "constructor" true; InsertEl (Some 0) true false;
     SVGInserted (Some 0)]
  ∧ _ranScripts (loaded once) = ∅
  ∧ ran_before (_ranScripts (loaded once)) "constructor" = true
  ∧ evaluated (log (loaded always)) = ["init()"; "start()"]
  ∧ _ranScripts (loaded always) = {["constructor" := true]}.
Proof. repeat split. Qed.


(** * Further properties of the directive *)

(** ** Properties the methods keep *)

Section Preserve.
Context (I : Directive → Prop).

Lemma preserves_ret {A} (a : A) : preserves I (mret a).
Proof. intros d Hd. exact Hd. Qed.

Lemma preserves_throw {A} (e : string) : preserves I (mthrow e : M A).
Proof. intros d Hd. exact Hd. Qed.

Lemma preserves_this : preserves I this.
Proof. intros d Hd. exact Hd. Qed.

Lemma preserves_bind {A B} (m : M A) (k : A → M B) :
  preserves I m → (∀ a, preserves I (k a)) → preserves I (m ≫= k).
Proof.
  intros Hm Hk d Hd. specialize (Hm d Hd). rewrite bind_eq.
  destruct (m d) as [[a|e] d']; simpl in *; [|exact Hm]. by apply Hk.
Qed.

Lemma preserves_modify (g : Directive → Directive) :
  (∀ d, I d → I (g d)) → preserves I (modify g).
Proof. intros Hg d Hd. by apply Hg. Qed.

Hypothesis I_emit :
  ∀ e d, plain e = true → I d → I (set_log (log d ++ [e]) d).
Hypothesis I_heap : ∀ h d, I d → I (set_heap h d).

Lemma preserves_emit (e : Event) : plain e = true → preserves I (emit e).
Proof. intros He d Hd. by apply I_emit. Qed.

Lemma preserves_alloc (n : Node) : preserves I (alloc n).
Proof. intros d Hd. by apply I_heap. Qed.

Lemma preserves_assign (r : Ref) (n : Node) : preserves I (assign r n).
Proof. intros d Hd. by apply I_heap. Qed.

Lemma preserves_deref (r : Ref) : preserves I (deref r).
Proof.
  unfold deref. apply preserves_bind; [apply preserves_this|intros d].
  destruct (heap d !! r); [apply preserves_ret|apply preserves_throw].
Qed.

Lemma preserves_exec (m : M unit) (d : Directive) :
  preserves I m → I d → I (exec m d).
Proof.
  intros Hm Hd. specialize (Hm d Hd). unfold exec.
  destruct (m d) as [[[]|e] d']; simpl in *; [exact Hm|]. by apply I_emit.
Qed.

Ltac keep :=
  repeat match goal with
    | |- preserves _ (mret _) => apply preserves_ret
    | |- preserves _ (mthrow _) => apply preserves_throw
    | |- preserves _ this => apply preserves_this
    | |- preserves _ (emit _) => apply preserves_emit; reflexivity
    | |- preserves _ (alloc _) => apply preserves_alloc
    | |- preserves _ (assign _ _) => apply preserves_assign
    | |- preserves _ (deref _) => apply preserves_deref
    | |- preserves _ (mbind _ _) => apply preserves_bind; [|intros ?]
    | |- preserves _ (match ?x with _ => _ end) => destruct x
    | |- preserves _ (let _ := _ in _) => cbv zeta
    end.

Lemma preserves_run_scripts (l : list string) : preserves I (run_scripts l).
Proof. induction l as [|text l IH]; simpl; keep. exact IH. Qed.

(** [_evalScripts] keeps what setting an entry of the record keeps. *)
Lemma preserves_evalScripts (svg : option Ref) :
  (∀ k d, I d → I (set_ranScripts (mark_ran k (_ranScripts d)) d)) →
  preserves I (_evalScripts svg).
Proof.
  intros Hran. unfold _evalScripts. keep.
  - apply preserves_run_scripts.
  - apply preserves_modify. intros d Hd. by apply Hran.
Qed.

(** [_insertEl] keeps what the work of the sink keeps. *)
Lemma preserves_insertEl (el : option Ref) :
  (∀ c d, I d → I (set_svgComp c d)) →
  (∀ e d, requests [e] = [] → I d → I (set_log (log d ++ [e]) d)) →
  preserves I (_insertEl el).
Proof.
  intros Hcomp Hlog d Hd. rewrite insertEl_eq. simpl.
  assert (∀ l d, requests l = [] → I d → I (set_log (log d ++ l) d)) as Hl.
  { clear d Hd. intros l. induction l as [|e l IH] using rev_ind; intros d Hl Hd.
    - by rewrite app_nil_r, set_log_same.
    - rewrite requests_app in Hl. apply app_eq_nil in Hl as [Hl He].
      rewrite app_assoc.
      change (set_log ((log d ++ l) ++ [e]) d)
        with (set_log (log (set_log (log d ++ l) d) ++ [e])
                (set_log (log d ++ l) d)).
      apply Hlog; [exact He|]. by apply IH. }
  change (I (set_log
               (log (set_svgComp (injectComponent (inputs d) || _svgComp d) d)
                  ++ sink_events d el)
               (set_svgComp (injectComponent (inputs d) || _svgComp d) d))).
  apply Hl; [apply requests_sink_events|]. by apply Hcomp.
Qed.

Hypothesis I_settle :
  ∀ i d, I d → I (set_subscriptions (<[i := Settled]> (subscriptions d)) d).
Hypothesis I_insertEl : ∀ el, preserves I (_insertEl el).
Hypothesis I_evalScripts : ∀ svg, preserves I (_evalScripts svg).

Lemma preserves_fail (msg : string) : preserves I (_fail msg).
Proof. unfold _fail. keep. apply I_insertEl. Qed.

Lemma preserves_processSvg (svg : option Ref) : preserves I (_processSvg svg).
Proof.
  unfold _processSvg, strip_attributes, apply_hook, force_styles.
  keep; first [apply I_insertEl|apply I_evalScripts].
Qed.

Lemma preserves_on_next (svg : option Ref) : preserves I (on_next svg).
Proof. unfold on_next. keep; apply preserves_processSvg. Qed.

Lemma preserves_deliver (sub : nat) (o : Outcome) :
  preserves I (deliver sub o).
Proof.
  intros d Hd.
  destruct (decide (subscriptions d !! sub = Some Pending)) as [Hsub|Hsub].
  - rewrite deliver_pending by exact Hsub.
    assert (preserves I
              match o with
              | Next None => on_next None
              | Next (Some doc) => r ← alloc doc; on_next (Some r)
              | Error err => on_error err
              end) as Hk.
    { destruct o as [[doc|]|err]; keep;
        first [apply preserves_on_next|apply preserves_fail]. }
    apply Hk. by apply I_settle.
  - by rewrite deliver_closed.
Qed.

(** [_insertSVG] keeps what a failure keeps and what making a subscription
    for a new, non-empty URL keeps. *)
Lemma preserves_insertSVG :
  (∀ d u, I d → svg_possible d = true → inlineSVG (inputs d) = Some u →
          u ≠ "" → _prevUrl d ≠ Some u →
          I (set_subscription (Some (length (subscriptions d)))
               (set_subscriptions (subscriptions d ++ [Pending])
                  (set_log (log d ++ [GetSVG u (cacheSVG (inputs d))])
                     (set_prevUrl (Some u) d))))) →
  preserves I _insertSVG.
Proof.
  intros Hnew d Hd. rewrite insertSVG_eq.
  destruct (svg_possible d) eqn:Hok; [simpl|exact Hd].
  destruct (inlineSVG (inputs d)) as [[|a u]|] eqn:Hurl; simpl;
    try by apply preserves_fail.
  case_bool_decide as Hprev; [exact Hd|].
  rewrite subscribe_eq. simpl. by apply Hnew.
Qed.

Hypothesis I_inputs : ∀ i d, I d → I (set_inputs i d).
Hypothesis I_unsubscribe :
  ∀ i d, I d →
         I (set_subscriptions (<[i := Unsubscribed]> (subscriptions d)) d).
Hypothesis I_insertSVG : preserves I _insertSVG.

(** A property that the parts of a step keep is kept by every step. *)
Lemma preserves_step (d : Directive) (a : Action) : I d → I (step d a).
Proof.
  intros Hd. destruct a as [i| |c| |sub o]; simpl.
  - by apply I_inputs.
  - apply preserves_exec; [|exact Hd]. unfold ngOnInit. keep. exact I_insertSVG.
  - apply preserves_exec; [|exact Hd]. unfold ngOnChanges. keep.
    exact I_insertSVG.
  - unfold exec. rewrite ngOnDestroy_eq.
    destruct (_subscription d) as [i|]; [|exact Hd].
    destruct (subscriptions d !! i) as [[]|]; try exact Hd.
    by apply I_unsubscribe.
  - apply preserves_exec; [|exact Hd]. apply preserves_deliver.
Qed.

Lemma preserves_run (d : Directive) (actions : list Action) :
  I d → I (run d actions).
Proof.
  revert d. induction actions as [|a l IH]; intros d Hd; [exact Hd|].
  apply IH. by apply preserves_step.
Qed.

End Preserve.

(** ** The script-run record is never cleared *)

Lemma record_kept_by_step (k : string) (d : Directive) (a : Action) :
  _ranScripts d !! k = Some true → _ranScripts (step d a) !! k = Some true.
Proof.
  apply (preserves_step (λ d, _ranScripts d !! k = Some true)); try done.
  - intros el. by apply preserves_insertEl.
  - intros svg. apply preserves_evalScripts; [done|done|].
    intros k' d' Hd'. simpl. by apply mark_ran_keeps.
  - apply preserves_insertSVG; try done. intros el. by apply preserves_insertEl.
Qed.

(** X1. Once the instance has recorded that it ran scripts for a URL, the
    record stays, whatever happens to the instance afterwards, its
    destruction included; so under ['once'] scripts are not run again while
    that URL is the current one. *)
Theorem record_is_never_cleared
    (d : Directive) (actions : list Action) (url : string) :
  _ranScripts d !! url = Some true →
  _ranScripts (run d actions) !! url = Some true
  ∧ (inlineSVG (inputs (run d actions)) = Some url →
     evalScripts (inputs (run d actions)) = once →
     ∀ l, should_run l (run d actions) = false).
Proof.
  intros Hd.
  assert (_ranScripts (run d actions) !! url = Some true) as Hrun.
  { revert d Hd. induction actions as [|a l IH]; intros d Hd; [exact Hd|].
    apply IH. by apply record_kept_by_step. }
  split; [exact Hrun|]. intros Hurl Hpol l.
  unfold should_run, ran_before. rewrite Hpol, Hurl. simpl. rewrite Hrun.
  destruct (String.eqb url "__proto__"); apply andb_false_r.
Qed.

Lemma record_is_never_cleared_witness :
  let d := step Sample.loading_a (Deliver 0 (Next (Some Sample.script_doc))) in
  let d' := run d [NgOnDestroy; SetInputs (Sample.url "b.svg");
                   NgOnChanges true;
                   SetInputs (Sample.with_policy once (Sample.url "a.svg"));
                   NgOnChanges true] in
  _ranScripts d' !! "a.svg" = Some true
  ∧ (inlineSVG (inputs d') = Some "a.svg" →
     evalScripts (inputs d') = once →
     ∀ l, should_run l d' = false).
Proof.
  apply (record_is_never_cleared
           (step Sample.loading_a (Deliver 0 (Next (Some Sample.script_doc))))).
  reflexivity.
Defined.

(** ** The requests an instance makes *)

Lemma requested_quiet (e : Event) (d : Directive) :
  requests [e] = [] → requested (set_log (log d ++ [e]) d) = requested d.
Proof.
  intros He. unfold requested. simpl.
  by rewrite requests_app, He, app_nil_r.
Qed.

Lemma requested_new (u : string) (c : bool) (d : Directive) :
  requested (set_log (log d ++ [GetSVG u c]) d) = requested d ++ [u].
Proof. unfold requested. simpl. by rewrite requests_app, fmap_app. Qed.

Lemma no_repeat_snoc (l : list string) (u : string) :
  no_repeat l → last l ≠ Some u → no_repeat (l ++ [u]).
Proof.
  induction l as [|a [|b l] IH]; simpl.
  - done.
  - intros _ Ha. split; [congruence|done].
  - intros [Hab Hl] Hlast. split; [exact Hab|]. by apply IH.
Qed.

Lemma no_repeat_lookup (l : list string) (i : nat) (u v : string) :
  no_repeat l → l !! i = Some u → l !! S i = Some v → u ≠ v.
Proof.
  revert i. induction l as [|a [|b l] IH]; intros i; simpl.
  - done.
  - destruct i; done.
  - intros [Hab Hl]. destruct i as [|i]; simpl.
    + intros [= <-] [= <-]. exact Hab.
    + by apply IH.
Qed.

Lemma requests_inv_quiet (e : Event) (d : Directive) :
  requests [e] = [] → requests_inv d →
  requests_inv (set_log (log d ++ [e]) d).
Proof.
  intros He Hd. unfold requests_inv. by rewrite (requested_quiet e d He).
Qed.

Lemma requests_inv_subscriptions (i : nat) (s : Subscription)
    (d : Directive) :
  requests_inv d →
  requests_inv (set_subscriptions (<[i := s]> (subscriptions d)) d).
Proof.
  unfold requests_inv, requested. simpl. by rewrite length_insert.
Qed.

Lemma requests_inv_step (d : Directive) (a : Action) :
  requests_inv d → requests_inv (step d a).
Proof.
  assert (∀ el, preserves requests_inv (_insertEl el)) as Hins.
  { intros el. apply preserves_insertEl; [done|].
    intros e d0 He. by apply requests_inv_quiet. }
  apply (preserves_step requests_inv); try done.
  - intros e d0 He. apply requests_inv_quiet. by destruct e.
  - intros i d0. apply requests_inv_subscriptions.
  - intros svg. apply preserves_evalScripts; try done.
    intros e d0 He. apply requests_inv_quiet. by destruct e.
  - intros i d0. apply requests_inv_subscriptions.
  - apply preserves_insertSVG; try done.
    { intros e d0 He. apply requests_inv_quiet. by destruct e. }
    intros d0 u (Hlen & Hsub & Hprev & Hne & Hrep) _ _ Hu Hnew.
    unfold requests_inv, requested in *. simpl.
    assert ((requests (log d0 ++ [GetSVG u (cacheSVG (inputs d0))])).*1
            = (requests (log d0)).*1 ++ [u]) as ->
      by (by rewrite requests_app, fmap_app).
    rewrite !length_app, last_snoc. simpl. rewrite Nat.add_1_r.
    split; [lia|]. split; [reflexivity|]. split; [done|].
    split; [apply Forall_app; split; [done|by constructor]|].
    apply no_repeat_snoc; [exact Hrep|]. by rewrite <- Hprev.
Qed.

Lemma requests_inv_reachable (d : Directive) :
  reachable d → requests_inv d.
Proof.
  induction 1 as [e p s|d a _ IH]; [|by apply requests_inv_step].
  destruct p, s; repeat split; constructor.
Qed.

(** X2. Every request to the cache made one subscription, and the instance
    holds the one made last (none before its first request). *)
Theorem one_subscription_per_request (d : Directive) :
  reachable d →
  length (subscriptions d) = length (requests (log d))
  ∧ _subscription d = latest (length (requests (log d))).
Proof.
  intros Hd. destruct (requests_inv_reachable d Hd) as (Hlen & Hsub & _).
  unfold requested in Hlen. rewrite length_fmap in Hlen.
  split; [exact Hlen|]. by rewrite <- Hlen.
Qed.

Lemma one_subscription_per_request_witness :
  length (subscriptions (Sample.asked_twice once))
  = length (requests (log (Sample.asked_twice once)))
  ∧ _subscription (Sample.asked_twice once)
    = latest (length (requests (log (Sample.asked_twice once)))).
Proof.
  apply (one_subscription_per_request (Sample.asked_twice once)).
  apply reachable_run. constructor.
Defined.

(** X3. The URL the instance remembers is the URL of its last request to
    the cache: outcomes, failures and destruction do not change it, and a
    load that was short-circuited or failed for a missing URL made no
    request. *)
Theorem remembered_url_is_last_request (d : Directive) :
  reachable d → _prevUrl d = last (requested d).
Proof. intros Hd. by destruct (requests_inv_reachable d Hd) as (_ & _ & ? & _). Qed.

Lemma remembered_url_is_last_request_witness :
  _prevUrl (step Sample.failed_a NgOnDestroy)
  = last (requested (step Sample.failed_a NgOnDestroy)).
Proof.
  apply (remembered_url_is_last_request (step Sample.failed_a NgOnDestroy)).
  constructor. constructor. apply reachable_run. constructor.
Defined.

(** X4. The instance never asks the cache for the empty URL. *)
Theorem never_requests_empty_url (d : Directive) (u : string) (c : bool) :
  reachable d → GetSVG u c ∈ log d → u ≠ "".
Proof.
  intros Hd Hin.
  destruct (requests_inv_reachable d Hd) as (_ & _ & _ & Hne & _).
  rewrite Forall_forall in Hne. apply Hne. unfold requested.
  apply (list_elem_of_fmap_2 fst _ (u, c)).
  apply list_elem_of_omap. by exists (GetSVG u c).
Qed.

Lemma never_requests_empty_url_witness :
  GetSVG "b.svg" true ∈ log Sample.superseded ∧ "b.svg" ≠ "".
Proof.
  assert (GetSVG "b.svg" true ∈ log Sample.superseded) as Hin.
  { vm_compute. right. left. }
  split; [exact Hin|].
  apply (never_requests_empty_url Sample.superseded "b.svg" true);
    [|exact Hin].
  apply reachable_run, reachable_run. constructor.
Defined.

(** X5. The instance never asks the cache for the same URL twice in a row:
    between two requests for a URL there is a request for another. *)
Theorem never_asks_twice_in_a_row (d : Directive) (i : nat) (u v : string) :
  reachable d →
  requested d !! i = Some u → requested d !! S i = Some v → u ≠ v.
Proof.
  intros Hd.
  destruct (requests_inv_reachable d Hd) as (_ & _ & _ & _ & Hrep).
  by apply no_repeat_lookup.
Qed.

Lemma never_asks_twice_in_a_row_witness :
  requested (Sample.asked_twice always) = ["a.svg"; "b.svg"; "a.svg"]
  ∧ "b.svg" ≠ "a.svg".
Proof.
  split; [reflexivity|].
  apply (never_asks_twice_in_a_row (Sample.asked_twice always) 1).
  - apply reachable_run. constructor.
  - reflexivity.
  - reflexivity.
Defined.

(** ** The component of the component path *)

Lemma components_app (l k : list Event) :
  components (l ++ k) = components l + components k.
Proof. unfold components. by rewrite omap_app, length_app. Qed.

Lemma components_quiet (e : Event) (d : Directive) :
  e ≠ CreateComponent →
  components (log d ++ [e]) = components (log d).
Proof.
  intros He. rewrite components_app.
  destruct e; try done; unfold components; simpl; lia.
Qed.

Lemma components_insertEl (el : option Ref) :
  preserves (λ d, components (log d) = if _svgComp d then 1 else 0)
    (_insertEl el).
Proof.
  intros d Hd. rewrite insertEl_eq. simpl. rewrite components_app, Hd.
  unfold sink_events.
  destruct (injectComponent (inputs d)), (_svgComp d); reflexivity.
Qed.

Lemma components_step (d : Directive) (a : Action) :
  components (log d) = (if _svgComp d then 1 else 0) →
  components (log (step d a)) = (if _svgComp (step d a) then 1 else 0).
Proof.
  apply (preserves_step
           (λ d, components (log d) = if _svgComp d then 1 else 0));
    try done.
  - intros e d0 He Hd0. simpl. rewrite components_quiet; [done|by destruct e].
  - apply components_insertEl.
  - intros svg. apply preserves_evalScripts; try done.
    intros e d0 He Hd0. simpl. rewrite components_quiet; [done|by destruct e].
  - apply preserves_insertSVG; try done.
    + intros e d0 He Hd0. simpl.
      rewrite components_quiet; [done|by destruct e].
    + apply components_insertEl.
    + intros d0 u Hd0 _ _ _ _. simpl. by rewrite components_quiet.
Qed.

(** X6. On the component path the component is created once, at the first
    insertion, and used for every later one. *)
Theorem component_created_once (d : Directive) :
  reachable d →
  components (log d) ≤ 1
  ∧ (components (log d) = 1 ↔ _svgComp d = true).
Proof.
  intros Hd.
  assert (components (log d) = if _svgComp d then 1 else 0) as ->.
  { induction Hd as [e p s|d a _ IH]; [by destruct p, s|].
    by apply components_step. }
  destruct (_svgComp d); split; try lia; done.
Qed.

Lemma component_created_once_witness :
  components (log Sample.component_twice) ≤ 1
  ∧ (components (log Sample.component_twice) = 1
     ↔ _svgComp Sample.component_twice = true).
Proof.
  apply (component_created_once Sample.component_twice).
  apply reachable_run. constructor.
Defined.

Example component_is_reused :
  log Sample.component_twice
  = [GetSVG "a.svg" true; CreateComponent;
     ComponentContent (Some 0) true false; SVGInserted (Some 0);
     GetSVG "b.svg" true;
     ComponentContent (Some 1) false true; SVGInserted (Some 1)].
Proof. reflexivity. Qed.

(** ** Instances that cannot show SVG *)

(** An instance behind one of the two guards, with no subscription, is
    changed by nothing but the writing of its inputs. *)
Lemma inert_step (d : Directive) (a : Action) :
  platform_ok d = false ∨ svg_possible d = false →
  subscriptions d = [] → _subscription d = None →
  ∃ i, step d a = set_inputs i d.
Proof.
  intros Hguard Hsubs Hsub.
  assert (d = set_inputs (inputs d) d) as Hd by (by destruct d).
  assert (_insertSVG d = (Normal tt, d) ∨ platform_ok d = false) as Hload.
  { destruct Hguard as [Hp|Hs]; [by right|left].
    by rewrite insertSVG_eq, Hs. }
  destruct a as [i| |c| |sub o]; simpl.
  - by exists i.
  - exists (inputs d). unfold exec, ngOnInit. rewrite bind_eq. simpl.
    destruct (platform_ok d); simpl; [|exact Hd].
    destruct Hload as [->|?]; [exact Hd|done].
  - exists (inputs d). unfold exec, ngOnChanges. rewrite bind_eq. simpl.
    destruct (platform_ok d); simpl; [|exact Hd].
    destruct c; [|exact Hd]. destruct Hload as [->|?]; [exact Hd|done].
  - exists (inputs d). unfold exec. by rewrite ngOnDestroy_eq, Hsub.
  - exists (inputs d). unfold exec. rewrite deliver_closed; [exact Hd|].
    by rewrite Hsubs.
Qed.

Lemma inert_run (d : Directive) (actions : list Action) :
  platform_ok d = false ∨ svg_possible d = false →
  subscriptions d = [] → _subscription d = None →
  ∃ i, run d actions = set_inputs i d.
Proof.
  revert d. induction actions as [|a l IH]; intros d Hguard Hsubs Hsub.
  - exists (inputs d). by destruct d.
  - destruct (inert_step d a Hguard Hsubs Hsub) as [i Hi].
    simpl. rewrite Hi. destruct (IH (set_inputs i d)) as [j Hj]; try done.
    exists j. by rewrite Hj.
Qed.

(** X7. On a platform that is neither the browser nor the server the
    lifecycle hooks return at once: whatever the framework and the cache
    do, nothing but the inputs of the instance changes; no request is made
    and nothing is inserted or emitted after construction. *)
Theorem inert_off_platform
    (e : Env) (p : Platform) (s : bool) (actions : list Action) :
  isPlatformBrowser p = false → isPlatformServer p = false →
  ∃ i, run (create e p s) actions = set_inputs i (create e p s).
Proof.
  intros Hb Hs. apply inert_run.
  - left. by destruct p, s.
  - by destruct p, s.
  - by destruct p, s.
Qed.

Lemma inert_off_platform_witness :
  ∃ i, run (create Sample.env WorkerApp true)
         [SetInputs (Sample.url "a.svg"); NgOnInit; NgOnChanges true;
          Deliver 0 (Next (Some Sample.plain_doc)); NgOnDestroy]
       = set_inputs i (create Sample.env WorkerApp true).
Proof.
  apply (inert_off_platform Sample.env WorkerApp true); reflexivity.
Defined.

(** X8. Where SVG is not supported (and the platform is not the server) the
    constructor reports the failure, once and without a fallback image, and
    from then on nothing but the inputs of the instance changes: every load
    returns before it looks at the URL. *)
Theorem unsupported_is_reported_once
    (e : Env) (p : Platform) (actions : list Action) :
  isPlatformServer p = false →
  log (create e p false)
  = [SVGFailed "Embed SVG are not supported by this browser"]
  ∧ ∃ i, run (create e p false) actions = set_inputs i (create e p false).
Proof.
  intros Hs. split; [by destruct p|].
  apply inert_run.
  - right. by destruct p.
  - by destruct p.
  - by destruct p.
Qed.

Lemma unsupported_is_reported_once_witness :
  log (create Sample.env Browser false)
  = [SVGFailed "Embed SVG are not supported by this browser"]
  ∧ ∃ i, run (create Sample.env Browser false)
           [SetInputs (Sample.with_fallback "fallback.png"
                         (with_url None default_inputs));
            NgOnChanges true; NgOnInit]
         = set_inputs i (create Sample.env Browser false).
Proof.
  apply (unsupported_is_reported_once Sample.env Browser). reflexivity.
Defined.

(** ** The script loop on its own *)

Section ScriptLoop.
Import Dom Scripts.

Lemma fetch_nothing (l : list Node) (acc : list string * Node) :
  Forall (λ s, is_eligible s = false) l → fold_left fetch_step l acc = acc.
Proof.
  revert acc. induction l as [|s l IH]; intros acc Hl; [done|].
  apply Forall_cons in Hl as [Hs Hl]. simpl. unfold fetch_step at 2.
  rewrite Hs. by apply IH.
Qed.

Lemma nothing_eligible (l : list Node) :
  filter (λ s, is_eligible s = true) l = [] →
  Forall (λ s, is_eligible s = false) l.
Proof.
  intros Hnil. apply Forall_forall. intros s Hs.
  destruct (is_eligible s) eqn:He; [|done].
  assert (s ∈ filter (λ s, is_eligible s = true) l) as Hin
    by (by apply list_elem_of_filter).
  rewrite Hnil in Hin. inversion Hin.
Qed.

(** X9. The scripts [_evalScripts] collects are the texts of the [script]
    elements below the root whose [type] is missing, empty,
    [application/ecmascript] or [application/javascript], in document order;
    a script with any other type is passed over, and an element all of
    whose scripts have another type is left exactly as it is. *)
Theorem scripts_collected_in_document_order (svg : Node) :
  scriptsToEval svg
  = map textContent
      (filter (λ s, getAttribute "type" s ∈ script_types)
         (querySelectorAll "script" svg))
  ∧ ((∀ s, s ∈ querySelectorAll "script" svg →
           getAttribute "type" s ∉ script_types) →
     scriptsToEval svg = [] ∧ stripped svg = svg).
Proof.
  split.
  - apply scriptsToEval_types.
  - intros Hnone.
    assert (Forall (λ s, is_eligible s = false) (querySelectorAll "script" svg))
      as Hall.
    { apply Forall_forall. intros s Hs. specialize (Hnone s Hs).
      destruct (is_eligible s) eqn:He; [|done].
      by apply eligible_script_types in He. }
    unfold scriptsToEval, stripped, fetch_scripts.
    by rewrite fetch_nothing.
Qed.

Lemma scripts_collected_in_document_order_witness :
  scriptsToEval Sample.data_doc = []
  ∧ stripped Sample.data_doc = Sample.data_doc.
Proof.
  apply (proj2 (scripts_collected_in_document_order Sample.data_doc)).
  intros s Hs. cbv in Hs.
  apply elem_of_cons in Hs as [->|Hs];
    [|apply list_elem_of_singleton in Hs as ->];
    intros Hin; cbv in Hin;
    repeat (apply elem_of_cons in Hin as [Hin|Hin]; [discriminate|]);
    inversion Hin.
Defined.

Example scripts_of_other_types_are_passed_over :
  querySelectorAll "script" Sample.script_doc
  = [Elem 2 "script" [] [Text "init()"];
     Elem 4 "script" [("type", "text/plain")] [Text "data"];
     Elem 5 "script" [("type", "application/javascript")] [Text "start()"]]
  ∧ scriptsToEval Sample.script_doc = ["init()"; "start()"]
  ∧ stripped Sample.script_doc
    = Elem 1 "svg" []
        [Elem 3 "g" []
           [Elem 4 "script" [("type", "text/plain")] [Text "data"]]].
Proof. repeat split. Qed.

(** X10. Stripping is done once and for all: an element whose scripts were
    collected has none left to collect, and going through it again changes
    nothing. *)
Theorem stripping_is_idempotent (svg : Node) :
  scriptsToEval (stripped svg) = []
  ∧ stripped (stripped svg) = stripped svg.
Proof.
  assert (Forall (λ s, is_eligible s = false)
            (querySelectorAll "script" (stripped svg))) as Hnone.
  { apply Forall_forall. intros m. apply stripped_no_eligible. }
  split.
  - rewrite scriptsToEval_eq.
    replace (filter _ (querySelectorAll "script" (stripped svg)))
      with (@nil Node); [done|].
    symmetry. induction Hnone as [|m l Hm _ IH]; [done|].
    rewrite filter_cons. case_decide; [congruence|exact IH].
  - unfold stripped at 1, fetch_scripts. by rewrite fetch_nothing.
Qed.

End ScriptLoop.

(** ** A script that throws *)

Lemma evalScripts_throw (d : Directive) (r : Ref) (w : Node)
    (ok rest : list string) (bad e : string) :
  isPlatformBrowser (platformId d) = true →
  heap d !! r = Some w →
  should_run (Scripts.scriptsToEval w) d = true →
  Scripts.scriptsToEval w = ok ++ bad :: rest →
  all_return d ok = true →
  runScript (env d) bad = Some e →
  _evalScripts (Some r) d
  = (Thrown e,
     set_log (log d ++ map EvalScript (ok ++ [bad]))
       (set_heap (<[r := Scripts.stripped w]> (heap d)) d)).
Proof.
  intros Hb Hw Hrun Hl Hok Hbad.
  rewrite (evalScripts_eq d r w Hb Hw). cbv zeta. rewrite Hrun, Hl.
  by rewrite (run_scripts_throw ok rest bad e).
Qed.

(** X11. When a script of the document throws, in the browser, the element
    has been handed to the sink and is left there, stripped of its scripts;
    the scripts after the one that threw are not run, the script-run record
    is not written, styles are not forced and [onSVGInserted] does not
    emit: the exception leaves [_processSvg]. *)
Theorem throwing_script_aborts_after_insertion
    (d : Directive) (r : Ref) (t w : Node)
    (ok rest : list string) (bad e : string) :
  isPlatformBrowser (platformId d) = true →
  heap d !! r = Some t →
  transformed d t = Some w →
  should_run (Scripts.scriptsToEval w) d = true →
  Scripts.scriptsToEval w = ok ++ bad :: rest →
  all_return d ok = true →
  runScript (env d) bad = Some e →
  ∃ d',
    _processSvg (Some r) d = (Thrown e, d')
    ∧ log d'
      = log d ++ sink_events d (Some (working_ref d r))
          ++ map EvalScript (ok ++ [bad])
    ∧ heap d' !! working_ref d r = Some (Scripts.stripped w)
    ∧ _ranScripts d' = _ranScripts d.
Proof.
  intros Hb Ht Hw Hrun Hl Hok Hbad. unfold _processSvg.
  assert (r < length (heap d)) as Hr by (by eapply lookup_lt_Some).
  erewrite bind_normal by (by apply strip_attributes_eq).
  set (t1 := attributes_removed d t) in *.
  set (d1 := set_heap (<[r := t1]> (heap d)) d).
  assert (heap d1 !! r = Some t1) as Ht1.
  { subst d1. simpl. by rewrite list_lookup_insert_eq. }
  rewrite bind_eq, (apply_hook_eq d1 r t1 Ht1).
  unfold transformed, working_ref in *. fold t1 in Hw.
  replace (onSVGLoaded (inputs d1)) with (onSVGLoaded (inputs d))
    by reflexivity.
  destruct (onSVGLoaded (inputs d)) as [hook|].
  - rewrite Hw. erewrite bind_normal by apply insertEl_eq.
    erewrite bind_thrown.
    2:{ apply (evalScripts_throw _ (length (heap d1)) w ok rest bad e);
          try done.
        simpl. by rewrite lookup_app_r, Nat.sub_diag. }
    eexists. split; [reflexivity|]. simpl.
    rewrite length_insert, <- !app_assoc. split; [done|]. split; [|done].
    rewrite list_lookup_insert_eq; [done|].
    rewrite length_app, length_insert. simpl. lia.
  - injection Hw as <-. erewrite bind_normal by apply insertEl_eq.
    erewrite bind_thrown.
    2:{ by apply (evalScripts_throw _ r t1 ok rest bad e). }
    eexists. split; [reflexivity|]. simpl.
    rewrite <- !app_assoc. split; [done|]. split; [|done].
    rewrite list_lookup_insert_eq; [done|]. by rewrite length_insert.
Qed.

Lemma throwing_script_aborts_after_insertion_witness :
  let d := Sample.holding always Sample.throwing_doc in
  ∃ d',
    _processSvg (Some 0) d = (Thrown "Error", d')
    ∧ log d'
      = log d ++ sink_events d (Some (working_ref d 0))
          ++ map EvalScript (["init()"] ++ ["throw 1"])
    ∧ heap d' !! working_ref d 0 = Some (Scripts.stripped Sample.throwing_doc)
    ∧ _ranScripts d' = _ranScripts d.
Proof.
  apply (throwing_script_aborts_after_insertion
           (Sample.holding always Sample.throwing_doc) 0
           Sample.throwing_doc Sample.throwing_doc
           ["init()"] ["late()"] "throw 1" "Error"); reflexivity.
Defined.

(** ** Outside the browser *)

(** X12. Outside the browser (on the server) a document that arrives is
    inserted as it is: attributes are not removed even when
    [removeSVGAttributes] is set, scripts are neither stripped nor run, and
    with no hook and no style forcing the inserted tree is the delivered
    one. *)
Theorem outside_browser_document_is_untouched
    (d : Directive) (sub : nat) (t t0 : Node) :
  isPlatformBrowser (platformId d) = false →
  subscriptions d !! sub = Some Pending →
  resolved d t = Normal t0 →
  onSVGLoaded (inputs d) = None →
  forceEvalStyles (inputs d) = false →
  let d' := step d (Deliver sub (Next (Some t))) in
  log d'
  = log d ++ sink_events d (Some (arriving_ref d))
      ++ [SVGInserted (Some (arriving_ref d))]
  ∧ heap d' !! arriving_ref d = Some t0
  ∧ _ranScripts d' = _ranScripts d.
Proof.
  intros Hb Hsub Hres Hhook Hforce d'.
  assert (transformed d t0 = Some t0) as Hw.
  { unfold transformed, attributes_removed. rewrite Hhook, Hb.
    by destruct (removeSVGAttributes (inputs d)). }
  assert (to_run d t0 = []) as Hrun by (unfold to_run; by rewrite Hb).
  destruct (step_deliver_ok d sub t t0 t0 Hsub Hres Hw)
    as (Hlog & Hheap & _ & Hran & _).
  { by rewrite Hrun. }
  fold d' in Hlog, Hheap, Hran.
  rewrite Hrun in Hlog. rewrite Hb in Hran.
  unfold finished in Hheap. rewrite Hb, Hforce in Hheap. done.
Qed.

Lemma outside_browser_document_is_untouched_witness :
  let d := Sample.on_server in
  let d' := step d (Deliver 0 (Next (Some Sample.script_doc))) in
  log d'
  = log d ++ sink_events d (Some (arriving_ref d))
      ++ [SVGInserted (Some (arriving_ref d))]
  ∧ heap d' !! arriving_ref d = Some Sample.script_doc
  ∧ _ranScripts d' = _ranScripts d.
Proof.
  apply (outside_browser_document_is_untouched Sample.on_server 0
           Sample.script_doc Sample.script_doc); reflexivity.
Defined.

(** ** Forcing styles *)

Lemma append_cons (c : ascii) (s k : string) :
  String c s +:+ k = String c (s +:+ k).
Proof. reflexivity. Qed.

Lemma append_empty (s : string) : s +:+ "" = s.
Proof. induction s as [|c s IH]; [done|]. by rewrite append_cons, IH. Qed.

Lemma textContent_rewrite_style (n : Node) :
  Dom.textContent (rewrite_style n) = Dom.textContent n.
Proof.
  induction n as [s|i t a ch IH] using Node_rect_list; [done|].
  cbn [rewrite_style]. destruct (String.eqb t "style").
  - destruct (Dom.textContent (Elem i t a ch)) as [|c txt] eqn:E; [done|].
    simpl. by rewrite append_empty.
  - simpl. induction IH as [|c ch Hc _ IHch]; [done|].
    simpl. by rewrite Hc, IHch.
Qed.

Lemma rewrite_style_twice (n : Node) :
  rewrite_style (rewrite_style n) = rewrite_style n.
Proof.
  induction n as [s|i t a ch IH] using Node_rect_list; [done|].
  cbn [rewrite_style]. destruct (String.eqb t "style") eqn:Et.
  - cbn [rewrite_style]. rewrite Et. f_equal.
    destruct (Dom.textContent (Elem i t a ch)) as [|c txt] eqn:E; [done|].
    simpl. by rewrite append_empty.
  - cbn [rewrite_style]. rewrite Et. f_equal.
    induction IH as [|c ch Hc _ IHch]; [done|].
    simpl. by rewrite Hc, IHch.
Qed.

(** X13. Forcing the evaluation of styles changes no text: the text content
    of the element is what it was; and forcing twice is forcing once. *)
Theorem forcing_styles_keeps_text (svg : Node) :
  Dom.textContent (forceStyles svg) = Dom.textContent svg
  ∧ forceStyles (forceStyles svg) = forceStyles svg.
Proof.
  destruct svg as [s|i t a ch]; [done|]. simpl. split.
  - induction ch as [|c ch IH]; [done|].
    simpl. by rewrite textContent_rewrite_style, IH.
  - f_equal. induction ch as [|c ch IH]; [done|].
    simpl. by rewrite rewrite_style_twice, IH.
Qed.

(** ** Destruction *)

(** X14. [ngOnDestroy] emits nothing and touches nothing but the state of
    the subscription the instance holds; calling it again changes nothing.
    The remembered URL and the script-run record survive it. *)
Theorem destroy_is_silent_and_idempotent (d : Directive) :
  step (step d NgOnDestroy) NgOnDestroy = step d NgOnDestroy
  ∧ log (step d NgOnDestroy) = log d
  ∧ heap (step d NgOnDestroy) = heap d
  ∧ _prevUrl (step d NgOnDestroy) = _prevUrl d
  ∧ _ranScripts (step d NgOnDestroy) = _ranScripts d
  ∧ _subscription (step d NgOnDestroy) = _subscription d.
Proof.
  simpl. unfold exec. rewrite !ngOnDestroy_eq.
  destruct (_subscription d) as [i|] eqn:Hi; [|by rewrite Hi].
  destruct (subscriptions d !! i) as [[]|] eqn:Hs; simpl; rewrite Hi;
    try by rewrite Hs.
  rewrite list_lookup_insert_eq by (by eapply lookup_lt_Some). done.
Qed.

(** ** Symbol URLs *)

Lemma split_hash_hashless (s : string) :
  hashless s = true → split_hash s = [s].
Proof.
  induction s as [|c s IH]; [done|]. simpl.
  destruct (Ascii.eqb c "#"); [done|]. simpl. intros Hs. by rewrite IH.
Qed.

Lemma split_hash_append (a rest : string) :
  hashless a = true →
  split_hash (a +:+ String "#" rest) = a :: split_hash rest.
Proof.
  induction a as [|c a IH]; [done|]. rewrite append_cons. simpl.
  destruct (Ascii.eqb c "#"); [done|]. simpl. intros Ha. by rewrite IH.
Qed.

(** X15. For a symbol URL [file#id] the [next] callback asks
    [createSymbolSvg] for the symbol [id] of the document that arrived and
    processes what it returns in place of the document; when
    [createSymbolSvg] throws, the callback throws with it: it has not
    called [_fail], nothing is emitted and nothing is inserted. *)
Theorem symbol_is_extracted_by_id
    (d : Directive) (r : Ref) (t : Node) (file id : string) :
  isUrlSymbol (env d) (inlineSVG (inputs d)) = true →
  inlineSVG (inputs d) = Some (file +:+ "#" +:+ id) →
  hashless file = true → hashless id = true →
  heap d !! r = Some t →
  on_next (Some r) d
  = match createSymbolSvg (env d) (Some t) (Some id) with
    | Normal sym =>
        _processSvg (Some (length (heap d))) (set_heap (heap d ++ [sym]) d)
    | Thrown e => (Thrown e, d)
    end.
Proof.
  intros Hsym Hurl Hfile Hid Ht. unfold on_next. next. simpl.
  rewrite Hsym, Hurl, bind_eq.
  erewrite bind_normal.
  2:{ erewrite bind_normal; [reflexivity|]. by apply deref_eq. }
  change (file +:+ "#" +:+ id) with (file +:+ String "#" id).
  rewrite (split_hash_append file id Hfile), (split_hash_hashless id Hid).
  simpl. destruct (createSymbolSvg (env d) (Some t) (Some id)); [|done].
  by erewrite bind_normal by reflexivity.
Qed.

Lemma symbol_is_extracted_by_id_witness :
  let d := Sample.loading_symbol in
  on_next (Some 0) d
  = match createSymbolSvg (env d) (Some Sample.sprite_doc) (Some "logo") with
    | Normal sym =>
        _processSvg (Some (length (heap d))) (set_heap (heap d ++ [sym]) d)
    | Thrown e => (Thrown e, d)
    end.
Proof.
  apply (symbol_is_extracted_by_id Sample.loading_symbol 0 Sample.sprite_doc
           "sprite.svg" "logo"); reflexivity.
Defined.

(** ** A missing URL, again and again *)

Lemma missing_url_step (d : Directive) (a : Action) :
  svg_possible d = true → platform_ok d = true →
  truthy (inlineSVG (inputs d)) = false →
  load_request a →
  reported "No URL passed to [inlineSVG]" d (step d a)
  ∧ config (step d a) = config d
  ∧ _prevUrl (step d a) = _prevUrl d.
Proof.
  intros Hok Hplat Hurl Ha. rewrite (missing_url_load d a) by done.
  split; [apply fail_reported|]. split.
  - apply keeps_fail, untouched_config.
  - apply keeps_fail, untouched_prevUrl.
Qed.

(** Load requests behind a closed guard change nothing, however many. *)
Lemma guarded_loads (d : Directive) (actions : list Action) :
  svg_possible d = false ∨ platform_ok d = false →
  Forall load_request actions → run d actions = d.
Proof.
  intros Hguard Hall. induction Hall as [|a l Ha _ IH]; [done|].
  change (run d (a :: l)) with (run (step d a) l).
  by rewrite (guarded_load d a).
Qed.

(** X16. Where the guards before it are open (the platform is the browser
    or the server, and it is the server or SVG is supported), the check for
    a missing URL comes before the short-circuit and does not set the
    remembered URL: every load request made while the URL is missing,
    through [ngOnInit] or [ngOnChanges] and however often repeated, emits
    the failure again and, when a fallback image is set, inserts one more
    fallback image; the cache is never asked.  Where one of the guards is
    closed, the same requests leave the instance as it was. *)
Theorem missing_url_fails_every_time (d : Directive) (actions : list Action) :
  truthy (inlineSVG (inputs d)) = false →
  Forall load_request actions →
  let d' := run d actions in
  (svg_possible d = true → platform_ok d = true →
   failures (log d')
   = failures (log d)
       ++ replicate (length actions) "No URL passed to [inlineSVG]"
   ∧ length (inserted (log d'))
     = length (inserted (log d))
       + (if truthy (fallbackImgUrl (inputs d)) then length actions else 0)
   ∧ requests (log d') = requests (log d)
   ∧ _prevUrl d' = _prevUrl d)
  ∧ (svg_possible d = false ∨ platform_ok d = false → d' = d).
Proof.
  intros Hurl Hall. cbv zeta. split; [|intros Hguard; by apply guarded_loads].
  revert d Hurl.
  induction Hall as [|a l Ha _ IH]; intros d Hurl Hok Hplat.
  - simpl. rewrite app_nil_r.
    destruct (truthy (fallbackImgUrl _)); repeat split; lia.
  - destruct (missing_url_step d a Hok Hplat Hurl Ha)
      as ((_ & _ & Hins & Hfail & Hreq & _) & Hconf & Hprev).
    unfold config in Hconf. injection Hconf as Hin _ Hp Hs.
    destruct (IH (step d a)) as (Hfail' & Hins' & Hreq' & Hprev').
    { by rewrite Hin. }
    { unfold svg_possible. by rewrite Hp, Hs. }
    { unfold platform_ok. by rewrite Hp. }
    change (run d (a :: l)) with (run (step d a) l).
    rewrite Hfail', Hins', Hreq', Hprev', Hfail, Hins, Hreq, Hprev, Hin.
    rewrite <- app_assoc, length_app. simpl. split; [done|].
    split; [|done].
    destruct (truthy (fallbackImgUrl _)); simpl; lia.
Qed.

Lemma missing_url_fails_every_time_witness :
  let d := set_inputs (Sample.with_fallback "fallback.png" default_inputs)
             Sample.browser in
  let actions := [NgOnInit; NgOnChanges true; NgOnInit] in
  let d' := run d actions in
  failures (log d') = replicate 3 "No URL passed to [inlineSVG]"
  ∧ length (inserted (log d')) = 3
  ∧ requests (log d') = []
  ∧ _prevUrl d' = None.
Proof.
  apply (missing_url_fails_every_time
           (set_inputs (Sample.with_fallback "fallback.png" default_inputs)
              Sample.browser)
           [NgOnInit; NgOnChanges true; NgOnInit]); try reflexivity.
  repeat (apply List.Forall_cons; [(by left) || (by right)|]).
  apply List.Forall_nil.
Defined.
